(** * dbwrapper.h: the typed, obfuscating access layer over LevelDB

    A shallow embedding of the classes of [src/dbwrapper.h] ([CDBBatch],
    [CDBIterator], [CDBWrapper]) and the properties of the layer:
    the batch size estimate, the XOR obfuscation of values, and the
    read/write contract of the store. *)

From Stdlib Require Import ZArith Lia List.
From stdpp Require Import gmap list.

Local Open Scope Z_scope.

(** ** Bytes and [size_t] *)

(** An [unsigned char] is an integer in [0, 256); a byte string
    ([std::string], [std::vector<unsigned char>], [leveldb::Slice]) is a
    list of them. *)
Abbreviation byte := Z (only parsing).
Abbreviation bytes := (list Z) (only parsing).

Definition is_byte (b : byte) : Prop := 0 <= b < 256.

(** [size_t] is a 64-bit unsigned integer: arithmetic on it wraps. *)
Definition size_t_bits : Z := 64.
Definition SIZE_MAX : Z := 2 ^ size_t_bits - 1.
Definition to_size_t (z : Z) : Z := z mod 2 ^ size_t_bits.

(** [s.size()] *)
Definition size (s : bytes) : Z := Z.of_nat (length s).

(** The value of a C++ [bool] used in an arithmetic expression. *)
Definition bool_to_size (b : bool) : Z := if b then 1 else 0.

(** Bytes set aside in a stream before a key or a value is written. *)
Definition DBWRAPPER_PREALLOC_KEY_SIZE : Z := 64.
Definition DBWRAPPER_PREALLOC_VALUE_SIZE : Z := 1024.

(** ** The codec: [template <typename T>] with [Serialize]/[Unserialize]

    The layer is generic in the key and value types; all it asks of a type
    is that a stream can write it ([<<]) and read it ([>>]). Reading
    throws (here: [None]) on malformed bytes. *)
Class Serializable (T : Type) := {
  Serialize : T -> bytes;
  Unserialize : bytes -> option T
}.

(** ** [CDataStream] *)
Module CDataStream.

(** Modelled from the spec: [CDataStream] comes from [streams.h], which is
    not part of the sources at hand. A stream is the byte vector it
    holds; the layer never reads from a stream it is still writing to,
    so no read position is kept. *)
Definition t : Type := bytes.

(** Modelled from the spec: [CDataStream ss(SER_DISK, CLIENT_VERSION)], a
    stream that holds nothing yet. *)
Definition empty : t := [].

(** Modelled from the spec: [CDataStream ss(begin, end, SER_DISK,
    CLIENT_VERSION)], a stream over given bytes. *)
Definition of_bytes (s : bytes) : t := s.

(** Modelled from the spec: [ss.reserve(n)] sets capacity aside and
    leaves the content as it is. *)
Definition reserve (ss : t) (n : Z) : t := ss.

(** Modelled from the spec: [ss << x] appends the encoding of [x]
    (section 4.1, encode). *)
Definition write {T} `{Serializable T} (ss : t) (x : T) : t :=
  ss ++ Serialize x.

(** Modelled from the spec: [ss >> x] decodes an [x] from the stream;
    [None] when it throws (section 4.1, decode). *)
Definition read {T} `{Serializable T} (ss : t) : option T :=
  Unserialize ss.

(** Modelled from the spec: [ss.clear()] drops the content. *)
Definition clear (ss : t) : t := [].

(** Modelled from the spec: [ss.data()] with [ss.size()], the content as
    one byte string. *)
Definition data (ss : t) : bytes := ss.

(** Modelled from the spec: [CDataStream::Xor] is not part of the sources
    at hand. Section 4.2: bytewise XOR, cyclically repeating the key
    when it is shorter than the payload. [j] is the index into the key;
    it restarts at 0 when it reaches the end of the key. An empty key
    leaves the stream as it is. *)
Fixpoint Xor_loop (key : bytes) (j : nat) (vch : bytes) : bytes :=
  match vch with
  | [] => []
  | b :: rest =>
      Z.lxor b (nth j key 0)
        :: Xor_loop key (if (S j =? length key)%nat then 0%nat else S j) rest
  end.

(** Modelled from the spec: [ss.Xor(key)], section 4.2, apply: the whole
    stream is XORed with the key, starting at its first byte. *)
Definition Xor (ss : t) (key : bytes) : t :=
  if (length key =? 0)%nat then ss else Xor_loop key 0 ss.

End CDataStream.

(** ** The engine's types: [leveldb::Status], [leveldb::WriteBatch] *)
Module leveldb.

(** Modelled from the spec: LevelDB is the external engine (section 6).
    A status is success, not-found, or an engine failure. *)
Inductive Status : Type :=
| OK | NotFound | Corruption | NotSupported | InvalidArgument | IOError.

(** Modelled from the spec: [status.ok()]. *)
Definition ok (s : Status) : bool :=
  match s with OK => true | _ => false end.

(** Modelled from the spec: [status.IsNotFound()]. *)
Definition IsNotFound (s : Status) : bool :=
  match s with NotFound => true | _ => false end.

(** Modelled from the spec: a batch entry is (kind, key, optional value)
    (section 3, BatchEntry). *)
Inductive Entry : Type :=
| PutEntry (key value : bytes)
| DeleteEntry (key : bytes).

Definition entry_key (e : Entry) : bytes :=
  match e with PutEntry k _ => k | DeleteEntry k => k end.

Module WriteBatch.

(** Modelled from the spec: the engine-native write batch holds its
    entries in the order they were added (section 3: apply-ordered). *)
Definition t : Type := list Entry.

(** Modelled from the spec: [batch.Put(key, value)] appends a put. *)
Definition Put (b : t) (key value : bytes) : t := b ++ [PutEntry key value].

(** Modelled from the spec: [batch.Delete(key)] appends a delete. *)
Definition Delete (b : t) (key : bytes) : t := b ++ [DeleteEntry key].

(** Modelled from the spec: [batch.Clear()] drops all entries. *)
Definition Clear (b : t) : t := [].

End WriteBatch.

(** The bytes of a length prefix (a varint), as the comment in
    [CDBBatch::Write] gives them: 1 byte up to 127, 2 bytes up to 16383,
    and so on, 7 bits a byte, up to the 5 bytes of a 32-bit length. *)
Definition varint_length (n : Z) : Z :=
  if n <=? 127 then 1
  else if n <=? 16383 then 2
  else if n <=? 2097151 then 3
  else if n <=? 268435455 then 4
  else 5.

(** The bytes LevelDB serializes an entry to, from the same comment:
    a header byte, then each field as varint length and bytes. *)
Definition entry_bytes (e : Entry) : Z :=
  match e with
  | PutEntry k v =>
      1 + varint_length (size k) + size k + varint_length (size v) + size v
  | DeleteEntry k => 1 + varint_length (size k) + size k
  end.

(** The bytes of all entries of a batch. *)
Fixpoint payload_bytes (b : WriteBatch.t) : Z :=
  match b with
  | [] => 0
  | e :: rest => entry_bytes e + payload_bytes rest
  end.

End leveldb.

(** ** Programs that call the engine

    The engine is an external collaborator: a method of the layer is a
    program that computes, calls the engine and goes on with the answer,
    and that may throw [dbwrapper_error]. The calls a program makes can be
    read off it whatever the engine answers. *)

(** [class dbwrapper_error : public std::runtime_error]; the message text
    is made from the failing status, which stands for it here. *)
Inductive dbwrapper_error : Type :=
| dbwrapper_error_of (status : leveldb.Status).

Inductive Outcome (A : Type) : Type :=
| Returns (a : A)
| Throws (e : dbwrapper_error).
Arguments Returns {A} a.
Arguments Throws {A} e.

Section Programs.

Context {call : Type} {answer : call -> Type}.

Inductive Prog (A : Type) : Type :=
| Ret (a : A)
| Throw (e : dbwrapper_error)
| Do (c : call) (k : answer c -> Prog A).
Arguments Ret {A} a.
Arguments Throw {A} e.
Arguments Do {A} c k.

Fixpoint bind {A B} (p : Prog A) (f : A -> Prog B) : Prog B :=
  match p with
  | Ret a => f a
  | Throw e => Throw e
  | Do c k => Do c (fun r => bind (k r) f)
  end.

(** An engine is a state and the way it answers each call. *)
Definition Engine (S : Type) : Type := forall c : call, S -> answer c * S.

Fixpoint run {S A} (h : Engine S) (s : S) (p : Prog A) : Outcome A * S :=
  match p with
  | Ret a => (Returns a, s)
  | Throw e => (Throws e, s)
  | Do c k => let (r, s') := h c s in run h s' (k r)
  end.

(** The calls the program makes against the engine [h], in order. *)
Fixpoint trace {S A} (h : Engine S) (s : S) (p : Prog A) : list call :=
  match p with
  | Ret _ => []
  | Throw _ => []
  | Do c k => let (r, s') := h c s in c :: trace h s' (k r)
  end.

End Programs.

Arguments Prog {call} answer A.
Arguments Ret {call answer A} a.
Arguments Throw {call answer A} e.
Arguments Do {call answer A} c k.
Arguments Engine {call} answer S.

Notation "p ;; q" := (bind p (fun _ => q))
  (at level 100, q at level 200, right associativity).

(** ** [CDBWrapper]'s data members

    The engine handle [pdb] is a pointer into the engine; the engine's
    state is kept by the engine, not in this record. The option sets
    select engine behaviour that is not told apart here. *)
Record CDBWrapper : Type := mkCDBWrapper {
  obfuscate_key : bytes
}.

Module dbwrapper_private.

(** Modelled from the spec: the body is in [dbwrapper.cpp]; the header
    says: handle database error by throwing [dbwrapper_error]. A status
    that is ok is no error. *)
Definition HandleError {call} {answer : call -> Type}
    (status : leveldb.Status) : Prog answer unit :=
  if leveldb.ok status then Ret tt else Throw (dbwrapper_error_of status).

(** Modelled from the spec: the body is in [dbwrapper.cpp]; the header
    declares it as the accessor of the wrapper's obfuscation key. *)
Definition GetObfuscateKey (w : CDBWrapper) : bytes := obfuscate_key w.

End dbwrapper_private.

(** ** [CDBBatch] *)
Module CDBBatch.

Import leveldb.

Record t : Type := mk {
  parent : CDBWrapper;
  batch : WriteBatch.t;
  ssKey : CDataStream.t;
  ssValue : CDataStream.t;
  size_estimate : Z
}.

(** [explicit CDBBatch(const CDBWrapper &_parent)] *)
Definition new (_parent : CDBWrapper) : t :=
  {| parent := _parent;
     batch := [];
     ssKey := CDataStream.empty;
     ssValue := CDataStream.empty;
     size_estimate := 0 |}.

(** [void Clear()] *)
Definition Clear (b : t) : t :=
  {| parent := parent b;
     batch := WriteBatch.Clear (batch b);
     ssKey := ssKey b;
     ssValue := ssValue b;
     size_estimate := 0 |}.

(** [template <typename K, typename V> void Write(const K& key, const V&
    value)]; the [size_estimate +=] is a [size_t] sum. *)
Definition Write {K V} {SK : Serializable K} {SV : Serializable V}
    (b : t) (key : K) (value : V) : t :=
  let ssKey0 := CDataStream.reserve (ssKey b) DBWRAPPER_PREALLOC_KEY_SIZE in
  let ssKey1 := CDataStream.write ssKey0 key in
  let slKey := CDataStream.data ssKey1 in
  let ssValue0 :=
    CDataStream.reserve (ssValue b) DBWRAPPER_PREALLOC_VALUE_SIZE in
  let ssValue1 := CDataStream.write ssValue0 value in
  let ssValue2 :=
    CDataStream.Xor ssValue1 (dbwrapper_private.GetObfuscateKey (parent b)) in
  let slValue := CDataStream.data ssValue2 in
  {| parent := parent b;
     batch := WriteBatch.Put (batch b) slKey slValue;
     ssKey := CDataStream.clear ssKey1;
     ssValue := CDataStream.clear ssValue2;
     size_estimate :=
       to_size_t (size_estimate b
                  + (3 + bool_to_size (127 <? size slKey) + size slKey
                     + bool_to_size (127 <? size slValue) + size slValue)) |}.

(** [template <typename K> void Erase(const K& key)]; [ssValue] is not
    touched. *)
Definition Erase {K} {SK : Serializable K} (b : t) (key : K) : t :=
  let ssKey0 := CDataStream.reserve (ssKey b) DBWRAPPER_PREALLOC_KEY_SIZE in
  let ssKey1 := CDataStream.write ssKey0 key in
  let slKey := CDataStream.data ssKey1 in
  {| parent := parent b;
     batch := WriteBatch.Delete (batch b) slKey;
     ssKey := CDataStream.clear ssKey1;
     ssValue := ssValue b;
     size_estimate :=
       to_size_t (size_estimate b
                  + (2 + bool_to_size (127 <? size slKey) + size slKey)) |}.

(** [size_t SizeEstimate() const] *)
Definition SizeEstimate (b : t) : Z := size_estimate b.

End CDBBatch.

(** ** The calls the layer makes on the engine *)

(** On [leveldb::DB* pdb]. *)
Inductive DBCall : Type :=
| Get (key : bytes)
| DBWrite (sync : bool) (updates : leveldb.WriteBatch.t)
| GetApproximateSizes (start limit : bytes)
| DBCompactRange (begin_ end_ : bytes).

Definition DBAnswer (c : DBCall) : Type :=
  match c with
  | Get _ => (leveldb.Status * bytes)%type
  | DBWrite _ _ => leveldb.Status
  | GetApproximateSizes _ _ => Z
  | DBCompactRange _ _ => unit
  end.

(** On [leveldb::Iterator *piter]. *)
Inductive IterCall : Type :=
| IterSeek (target : bytes)
| IterKey
| IterValue.

Definition IterAnswer (c : IterCall) : Type :=
  match c with
  | IterSeek _ => unit
  | IterKey => bytes
  | IterValue => bytes
  end.

(** ** [CDBIterator] *)
Module CDBIterator.

(** [piter] points into the engine; the cursor it stands for is the
    engine's. *)
Record t : Type := mk {
  parent : CDBWrapper
}.

Definition Seek {K} {SK : Serializable K} (it : t) (key : K)
    : Prog IterAnswer unit :=
  let ssKey := CDataStream.empty in
  let ssKey := CDataStream.reserve ssKey DBWRAPPER_PREALLOC_KEY_SIZE in
  let ssKey := CDataStream.write ssKey key in
  let slKey := CDataStream.data ssKey in
  Do (IterSeek slKey) (fun _ => Ret tt).

(** [Some key] is [return true] with the key set, [None] is
    [return false]. *)
Definition GetKey {K} {SK : Serializable K} (it : t)
    : Prog IterAnswer (option K) :=
  Do IterKey (fun slKey : bytes =>
    let ssKey := CDataStream.of_bytes slKey in
    match CDataStream.read ssKey with
    | Some key => Ret (Some key)
    | None => Ret None
    end).

Definition GetValue {V} {SV : Serializable V} (it : t)
    : Prog IterAnswer (option V) :=
  Do IterValue (fun slValue : bytes =>
    let ssValue := CDataStream.of_bytes slValue in
    let ssValue :=
      CDataStream.Xor ssValue (dbwrapper_private.GetObfuscateKey (parent it)) in
    match CDataStream.read ssValue with
    | Some value => Ret (Some value)
    | None => Ret None
    end).

(** The result is an [unsigned int]. *)
Definition GetValueSize (it : t) : Prog IterAnswer Z :=
  Do IterValue (fun slValue : bytes => Ret (size slValue mod 2 ^ 32)).

End CDBIterator.

(** ** [CDBWrapper] *)
Module CDBWrapper.

(** Modelled from the spec: the body is in [dbwrapper.cpp]. Section 4.5,
    commit: hand the batch's entries to the engine, which applies them
    all or none; [fSync] chooses the durable write options; an engine
    failure is surfaced through [HandleError]. *)
Definition WriteBatch (w : CDBWrapper) (batch : CDBBatch.t) (fSync : bool)
    : Prog DBAnswer bool :=
  Do (DBWrite fSync (CDBBatch.batch batch)) (fun status : leveldb.Status =>
    dbwrapper_private.HandleError status ;;
    Ret true).

(** [Some value] is [return true] with [value] set, [None] is
    [return false]. The log line before [HandleError] is left out. *)
Definition Read {K V} {SK : Serializable K} {SV : Serializable V}
    (w : CDBWrapper) (key : K) : Prog DBAnswer (option V) :=
  let ssKey := CDataStream.empty in
  let ssKey := CDataStream.reserve ssKey DBWRAPPER_PREALLOC_KEY_SIZE in
  let ssKey := CDataStream.write ssKey key in
  let slKey := CDataStream.data ssKey in
  Do (Get slKey) (fun r : leveldb.Status * bytes =>
    let (status, strValue) := r in
    let decode : Prog DBAnswer (option V) :=
      let ssValue := CDataStream.of_bytes strValue in
      let ssValue := CDataStream.Xor ssValue (obfuscate_key w) in
      match CDataStream.read ssValue with
      | Some value => Ret (Some value)
      | None => Ret None
      end in
    if negb (leveldb.ok status) then
      if leveldb.IsNotFound status then Ret None
      else (dbwrapper_private.HandleError status ;; decode)
    else decode).

Definition Write {K V} {SK : Serializable K} {SV : Serializable V}
    (w : CDBWrapper) (key : K) (value : V) (fSync : bool)
    : Prog DBAnswer bool :=
  let batch := CDBBatch.new w in
  let batch := CDBBatch.Write batch key value in
  WriteBatch w batch fSync.

Definition Exists {K} {SK : Serializable K} (w : CDBWrapper) (key : K)
    : Prog DBAnswer bool :=
  let ssKey := CDataStream.empty in
  let ssKey := CDataStream.reserve ssKey DBWRAPPER_PREALLOC_KEY_SIZE in
  let ssKey := CDataStream.write ssKey key in
  let slKey := CDataStream.data ssKey in
  Do (Get slKey) (fun r : leveldb.Status * bytes =>
    let (status, strValue) := r in
    if negb (leveldb.ok status) then
      if leveldb.IsNotFound status then Ret false
      else (dbwrapper_private.HandleError status ;; Ret true)
    else Ret true).

Definition Erase {K} {SK : Serializable K}
    (w : CDBWrapper) (key : K) (fSync : bool) : Prog DBAnswer bool :=
  let batch := CDBBatch.new w in
  let batch := CDBBatch.Erase batch key in
  WriteBatch w batch fSync.

Definition Flush (w : CDBWrapper) : Prog DBAnswer bool := Ret true.

Definition Sync (w : CDBWrapper) : Prog DBAnswer bool :=
  let batch := CDBBatch.new w in
  WriteBatch w batch true.

(** The engine's [uint64_t] estimate is returned as a [size_t]. *)
Definition EstimateSize {K} {SK : Serializable K}
    (w : CDBWrapper) (key_begin key_end : K) : Prog DBAnswer Z :=
  let ssKey1 := CDataStream.empty in
  let ssKey2 := CDataStream.empty in
  let ssKey1 := CDataStream.reserve ssKey1 DBWRAPPER_PREALLOC_KEY_SIZE in
  let ssKey2 := CDataStream.reserve ssKey2 DBWRAPPER_PREALLOC_KEY_SIZE in
  let ssKey1 := CDataStream.write ssKey1 key_begin in
  let ssKey2 := CDataStream.write ssKey2 key_end in
  let slKey1 := CDataStream.data ssKey1 in
  let slKey2 := CDataStream.data ssKey2 in
  Do (GetApproximateSizes slKey1 slKey2) (fun size : Z =>
    Ret (to_size_t size)).

Definition CompactRange {K} {SK : Serializable K}
    (w : CDBWrapper) (key_begin key_end : K) : Prog DBAnswer unit :=
  let ssKey1 := CDataStream.empty in
  let ssKey2 := CDataStream.empty in
  let ssKey1 := CDataStream.reserve ssKey1 DBWRAPPER_PREALLOC_KEY_SIZE in
  let ssKey2 := CDataStream.reserve ssKey2 DBWRAPPER_PREALLOC_KEY_SIZE in
  let ssKey1 := CDataStream.write ssKey1 key_begin in
  let ssKey2 := CDataStream.write ssKey2 key_end in
  let slKey1 := CDataStream.data ssKey1 in
  let slKey2 := CDataStream.data ssKey2 in
  Do (DBCompactRange slKey1 slKey2) (fun _ => Ret tt).

End CDBWrapper.

(** ** The engine, as the layer expects it to behave *)
Module Model.

Import leveldb.

(** Bytewise order on keys (the engine's comparator). *)
Fixpoint bytes_ltb (a b : bytes) : bool :=
  match a, b with
  | _, [] => false
  | [], _ :: _ => true
  | x :: a', y :: b' => (x <? y) || ((x =? y) && bytes_ltb a' b')
  end.

Inductive Fault : Type := Corrupted | IOFailed.

Definition fault_status (f : Fault) : Status :=
  match f with Corrupted => Corruption | IOFailed => IOError end.

(** Modelled from the spec: the engine collaborator contract of
    section 6. The store is a finite map from key bytes to value bytes;
    [get(key)] gives the bytes or not-found; [commit(entries)] applies all
    entries in order (the last write for a key wins) or, when the engine
    fails, none; a failing engine answers every lookup and commit with
    its failure status. *)
Record DB : Type := mkDB {
  table : gmap bytes bytes;
  fault : option Fault
}.

Definition apply_entry (m : gmap bytes bytes) (e : Entry) : gmap bytes bytes :=
  match e with
  | PutEntry k v => <[k:=v]> m
  | DeleteEntry k => delete k m
  end.

Definition apply_batch (m : gmap bytes bytes) (b : WriteBatch.t)
    : gmap bytes bytes :=
  fold_left apply_entry b m.

(** Modelled from the spec: [approximate_size(key_begin, key_end)] is
    explicitly approximate; here, the bytes of the entries whose key is
    in the range. *)
Definition approximate_size (m : gmap bytes bytes) (start limit : bytes) : Z :=
  map_fold (fun k v acc =>
              if negb (bytes_ltb k start) && bytes_ltb k limit
              then acc + size k + size v else acc) 0 m.

Definition db : Engine DBAnswer DB :=
  fun c s =>
    match c return DBAnswer c * DB with
    | Get key =>
        match fault s with
        | Some f => ((fault_status f, []), s)
        | None =>
            match table s !! key with
            | Some v => ((OK, v), s)
            | None => ((NotFound, []), s)
            end
        end
    | DBWrite _ updates =>
        match fault s with
        | Some f => (fault_status f, s)
        | None => (OK, {| table := apply_batch (table s) updates;
                          fault := None |})
        end
    | GetApproximateSizes start limit =>
        (approximate_size (table s) start limit, s)
    | DBCompactRange _ _ => (tt, s)
    end.

(** Modelled from the spec: the engine's cursor of section 4.4, over the
    entries in key order. [seek(key)] positions it at the smallest key
    that is at least the given one, or past the end; key and value are
    those of the entry it is positioned on. *)
Record Cursor : Type := mkCursor {
  entries : list (bytes * bytes);
  position : nat
}.

Fixpoint lower_bound (target : bytes) (es : list (bytes * bytes)) : nat :=
  match es with
  | [] => 0%nat
  | (k, _) :: rest =>
      if bytes_ltb k target then S (lower_bound target rest) else 0%nat
  end.

Definition current (c : Cursor) : bytes * bytes :=
  nth (position c) (entries c) ([], []).

Definition cursor : Engine IterAnswer Cursor :=
  fun c s =>
    match c return IterAnswer c * Cursor with
    | IterSeek target =>
        (tt, {| entries := entries s;
                position := lower_bound target (entries s) |})
    | IterKey => (fst (current s), s)
    | IterValue => (snd (current s), s)
    end.

End Model.

(** ** Some key and value types

    [serialize.h] is not part of the sources at hand; these instances
    follow the codec contract of section 4.1 and are what the layer is
    evaluated on below. *)

(** A [bool] is one byte; reading from an empty stream throws. *)
#[export] Instance Serializable_bool : Serializable bool := {|
  Serialize := fun b : bool => [if b then 1 else 0];
  Unserialize := fun s : bytes =>
    match s with
    | [] => None
    | x :: _ => Some (negb (x =? 0))
    end
|}.

(** An [unsigned char] is one byte. *)
#[export] Instance Serializable_uint8 : Serializable Byte.byte := {|
  Serialize := fun b : Byte.byte => [Z.of_N (Byte.to_N b)];
  Unserialize := fun s : bytes =>
    match s with
    | [] => None
    | x :: _ => Byte.of_N (Z.to_N x)
    end
|}.

(** A flat byte array, written as it is. *)
Record Flat : Type := mkFlat { flat_bytes : bytes }.

#[export] Instance Serializable_Flat : Serializable Flat := {|
  Serialize := fun x : Flat => flat_bytes x;
  Unserialize := fun s : bytes => Some (mkFlat s)
|}.

(** ** The life of a batch *)

(** One call on a batch, at any key and value types. *)
Inductive BatchCall : Type :=
| CallWrite {K V : Type} {SK : Serializable K} {SV : Serializable V}
    (key : K) (value : V)
| CallErase {K : Type} {SK : Serializable K} (key : K)
| CallClear.

Definition call_batch (b : CDBBatch.t) (c : BatchCall) : CDBBatch.t :=
  match c with
  | CallWrite key value => CDBBatch.Write b key value
  | CallErase key => CDBBatch.Erase b key
  | CallClear => CDBBatch.Clear b
  end.

Definition calls_batch (b : CDBBatch.t) (cs : list BatchCall) : CDBBatch.t :=
  fold_left call_batch cs b.

Definition is_update (c : BatchCall) : bool :=
  match c with CallClear => false | _ => true end.

(** The engine batch is a byte string in memory: its length is a
    [size_t]. *)
Definition fits_in_memory (b : CDBBatch.t) : Prop :=
  leveldb.payload_bytes (CDBBatch.batch b) <= SIZE_MAX.

(** The batches a program can hold: made by the constructor, then changed
    by calls, each leaving an engine batch that fits in memory. *)
Inductive Reachable (w : CDBWrapper) : CDBBatch.t -> Prop :=
| Reachable_new : Reachable w (CDBBatch.new w)
| Reachable_call b c :
    Reachable w b ->
    fits_in_memory (call_batch b c) ->
    Reachable w (call_batch b c).

(** What the code adds to the estimate for a put and for a delete. *)
Definition Write_estimate (key_len value_len : Z) : Z :=
  3 + bool_to_size (127 <? key_len) + key_len
    + bool_to_size (127 <? value_len) + value_len.

Definition Erase_estimate (key_len : Z) : Z :=
  2 + bool_to_size (127 <? key_len) + key_len.

(** The size formulas in the words of the specification (section 4.3). *)
Module Spec.

Definition framing_overhead (len : Z) : Z := if len <=? 127 then 2 else 3.

Definition put_increase (key_len value_len : Z) : Z :=
  framing_overhead key_len + key_len
  + framing_overhead value_len + value_len.

Definition delete_increase (key_len : Z) : Z :=
  framing_overhead key_len + key_len + 1.

End Spec.

(** The length prefix as the code counts it: 1 byte up to 127, else 2. *)
Definition length_prefix (len : Z) : Z := if len <=? 127 then 1 else 2.

(** Both scratch streams of the batch hold nothing. *)
Definition streams_empty (b : CDBBatch.t) : Prop :=
  CDBBatch.ssKey b = [] /\ CDBBatch.ssValue b = [].

(** A key of zeros, of any length: obfuscation switched off. *)
Definition all_zero (key : bytes) : Prop := Forall (fun b => b = 0) key.

(** What a call adds to the estimate. *)
Definition call_estimate (c : BatchCall) : Z :=
  match c with
  | CallWrite key value =>
      Write_estimate (size (Serialize key)) (size (Serialize value))
  | CallErase key => Erase_estimate (size (Serialize key))
  | CallClear => 0
  end.

(** ** Sample inputs *)

Definition sample_wrapper : CDBWrapper :=
  {| obfuscate_key := [171; 205; 239; 1] |}.

Definition plain_wrapper : CDBWrapper :=
  {| obfuscate_key := [0; 0; 0; 0; 0; 0; 0; 0] |}.

Definition empty_db : Model.DB :=
  {| Model.table := ∅; Model.fault := None |}.

(** A store in which the key of [true] holds no bytes at all, as after a
    raw write of an empty value through the engine. *)
Definition odd_db : Model.DB :=
  {| Model.table := {[ [1] := [] ]}; Model.fault := None |}.

(** A store whose engine fails with an I/O error. *)
Definition failing_db : Model.DB :=
  {| Model.table := ∅; Model.fault := Some Model.IOFailed |}.

Definition long_key : Flat := mkFlat (repeat 7 128).

(** The store after [Write(true, false)] on an empty one. *)
Definition written_db : Model.DB :=
  snd (run Model.db empty_db
         (CDBWrapper.Write sample_wrapper true false false)).

(** A cursor positioned on the entry that write made. *)
Definition written_cursor : Model.Cursor :=
  {| Model.entries :=
       [(Serialize true,
         CDataStream.Xor (Serialize false) (obfuscate_key sample_wrapper))];
     Model.position := 0 |}.

(** ** Batches and the store together *)

(** The entry a call queues in the engine batch; [Clear] queues none. *)
Definition call_entries (w : CDBWrapper) (c : BatchCall) : list leveldb.Entry :=
  match c with
  | CallWrite key value =>
      [leveldb.PutEntry (Serialize key)
         (CDataStream.Xor (Serialize value) (obfuscate_key w))]
  | CallErase key => [leveldb.DeleteEntry (Serialize key)]
  | CallClear => []
  end.

(** The same call made on the store itself: [CDBWrapper::Write] for a put,
    [CDBWrapper::Erase] for a delete. *)
Definition call_store (w : CDBWrapper) (fSync : bool) (c : BatchCall)
    : Prog DBAnswer bool :=
  match c with
  | CallWrite key value => CDBWrapper.Write w key value fSync
  | CallErase key => CDBWrapper.Erase w key fSync
  | CallClear => Ret true
  end.

(** The calls made on the store one after the other. *)
Fixpoint calls_store (w : CDBWrapper) (fSync : bool) (cs : list BatchCall)
    : Prog DBAnswer bool :=
  match cs with
  | [] => Ret true
  | c :: rest => call_store w fSync c ;; calls_store w fSync rest
  end.

(** The sum of what the calls add to the estimate. *)
Fixpoint calls_estimate (cs : list BatchCall) : Z :=
  match cs with
  | [] => 0
  | c :: rest => call_estimate c + calls_estimate rest
  end.

(** An entry whose key and value are both less than 16k, the assumption
    of the comment in [CDBBatch::Write]: each length is a varint of at
    most two bytes. *)
Definition below_16k (e : leveldb.Entry) : Prop :=
  match e with
  | leveldb.PutEntry k v => size k <= 16383 /\ size v <= 16383
  | leveldb.DeleteEntry k => size k <= 16383
  end.

(** A status that is neither ok nor not-found: the engine failed. *)
Definition is_failure (status : leveldb.Status) : bool :=
  negb (leveldb.ok status) && negb (leveldb.IsNotFound status).

(** The entries of a cursor are in strictly increasing key order. *)
Fixpoint keys_increase (es : list (bytes * bytes)) : Prop :=
  match es with
  | [] => True
  | e :: rest =>
      Forall (fun e' => Model.bytes_ltb (fst e) (fst e') = true) rest
      /\ keys_increase rest
  end.

(** A store with two keys, and a cursor over three entries. *)
Definition two_key_db : Model.DB :=
  snd (run Model.db written_db
         (CDBWrapper.Write sample_wrapper Byte.x2a true false)).

Definition three_entry_cursor : Model.Cursor :=
  {| Model.entries :=
       [([0], CDataStream.Xor (Serialize true) (obfuscate_key sample_wrapper));
        ([1], CDataStream.Xor (Serialize false) (obfuscate_key sample_wrapper));
        ([1; 5], [])];
     Model.position := 2 |}.

(** A value of 16384 bytes, one more than a two-byte varint can count. *)
Definition value_16k : Flat := mkFlat (repeat 0 (Z.to_nat 16384)).

(** * Properties *)

(** ** Arithmetic of [size_t] *)

Lemma to_size_t_small z : 0 <= z <= SIZE_MAX -> to_size_t z = z.
Proof.
  unfold to_size_t, SIZE_MAX. intros Hz.
  apply Z.mod_small. lia.
Qed.

Lemma size_nonneg (s : bytes) : 0 <= size s.
Proof. unfold size. lia. Qed.

Lemma size_app (s1 s2 : bytes) : size (s1 ++ s2) = size s1 + size s2.
Proof. unfold size. rewrite length_app. lia. Qed.

Lemma bool_to_size_range b : 0 <= bool_to_size b <= 1.
Proof. destruct b; simpl; lia. Qed.

Lemma bool_to_size_prefix len :
  1 + bool_to_size (127 <? len) = length_prefix len.
Proof.
  unfold bool_to_size, length_prefix.
  destruct (Z.ltb_spec 127 len), (Z.leb_spec len 127); lia.
Qed.

Lemma length_prefix_varint len : length_prefix len <= leveldb.varint_length len.
Proof.
  unfold length_prefix, leveldb.varint_length.
  repeat match goal with
         | |- context [?a <=? ?b] => destruct (Z.leb_spec a b)
         end; lia.
Qed.

(** ** The obfuscation *)

Lemma Xor_loop_length key j vch :
  length (CDataStream.Xor_loop key j vch) = length vch.
Proof.
  revert j. induction vch as [|b rest IH]; intros j; simpl; [done|].
  by rewrite IH.
Qed.

Lemma Xor_length ss key : length (CDataStream.Xor ss key) = length ss.
Proof.
  unfold CDataStream.Xor. destruct (length key =? 0)%nat; [done|].
  apply Xor_loop_length.
Qed.

Lemma Xor_size ss key : size (CDataStream.Xor ss key) = size ss.
Proof. unfold size. by rewrite Xor_length. Qed.

Lemma lxor_twice (a k : Z) : Z.lxor (Z.lxor a k) k = a.
Proof. by rewrite Z.lxor_assoc, Z.lxor_nilpotent, Z.lxor_0_r. Qed.

Lemma Xor_loop_involutive key j vch :
  CDataStream.Xor_loop key j (CDataStream.Xor_loop key j vch) = vch.
Proof.
  revert j. induction vch as [|b rest IH]; intros j; simpl; [done|].
  by rewrite lxor_twice, IH.
Qed.

Lemma Xor_involutive ss key :
  CDataStream.Xor (CDataStream.Xor ss key) key = ss.
Proof.
  unfold CDataStream.Xor. destruct (length key =? 0)%nat; [done|].
  apply Xor_loop_involutive.
Qed.

Lemma all_zero_nth key j : all_zero key -> nth j key 0 = 0.
Proof.
  intros Hz. revert j.
  induction Hz as [|b key Hb _ IH]; intros [|j]; simpl; auto.
Qed.

Lemma Xor_loop_zero key j vch :
  all_zero key -> CDataStream.Xor_loop key j vch = vch.
Proof.
  intros Hz. revert j.
  induction vch as [|b rest IH]; intros j; simpl; [done|].
  by rewrite all_zero_nth, Z.lxor_0_r, IH.
Qed.

Lemma Xor_zero ss key : all_zero key -> CDataStream.Xor ss key = ss.
Proof.
  intros Hz. unfold CDataStream.Xor.
  destruct (length key =? 0)%nat; [done|]. by apply Xor_loop_zero.
Qed.

(** The key is repeated cyclically: byte [i] of the stream meets byte
    [i mod length key] of the key. *)
Lemma Xor_loop_nth key j vch i :
  (j < length key)%nat ->
  (i < length vch)%nat ->
  nth i (CDataStream.Xor_loop key j vch) 0
  = Z.lxor (nth i vch 0) (nth ((j + i) mod length key) key 0).
Proof.
  revert i j. induction vch as [|b rest IH]; intros i j Hj Hi; simpl in Hi;
    [lia|].
  destruct i as [|i]; cbn [CDataStream.Xor_loop nth].
  - by rewrite Nat.add_0_r, Nat.mod_small.
  - destruct (Nat.eqb_spec (S j) (length key)) as [Heq|Hne]; cbv iota.
    + rewrite IH by lia. do 2 f_equal.
      replace (j + S i)%nat with (i + 1 * length key)%nat by lia.
      by rewrite Nat.Div0.mod_add.
    + rewrite IH by lia. do 3 f_equal. lia.
Qed.

Lemma Xor_nth ss key i :
  key <> [] ->
  (i < length ss)%nat ->
  nth i (CDataStream.Xor ss key) 0
  = Z.lxor (nth i ss 0) (nth (i mod length key) key 0).
Proof.
  intros Hkey Hi. unfold CDataStream.Xor.
  destruct key as [|k0 key]; [done|]. simpl length.
  change (S (length key) =? 0)%nat with false. cbv iota.
  rewrite Xor_loop_nth by (simpl; lia). reflexivity.
Qed.

(** XOR of two bytes is a byte, so a stream of bytes stays one. *)
Lemma lxor_is_byte a b : is_byte a -> is_byte b -> is_byte (Z.lxor a b).
Proof.
  unfold is_byte. intros [Ha0 Ha] [Hb0 Hb].
  assert (0 <= Z.lxor a b) as H0 by (apply Z.lxor_nonneg; lia).
  split; [exact H0|].
  assert (forall x, 0 <= x < 256 -> Z.log2 x < 8) as Hlog.
  { intros x [Hx0 Hx]. destruct (Z.eq_dec x 0) as [->|Hx1]; [done|].
    apply Z.log2_lt_pow2; lia. }
  destruct (Z.eq_dec (Z.lxor a b) 0) as [->|Hne]; [lia|].
  change 256 with (2 ^ 8). apply Z.log2_lt_pow2; [lia|].
  pose proof (Z.log2_lxor a b Ha0 Hb0).
  pose proof (Hlog a (conj Ha0 Ha)). pose proof (Hlog b (conj Hb0 Hb)). lia.
Qed.

Lemma Xor_loop_bytes key j vch :
  Forall is_byte key -> Forall is_byte vch ->
  Forall is_byte (CDataStream.Xor_loop key j vch).
Proof.
  intros Hkey Hv. revert j.
  induction Hv as [|b rest Hb _ IH]; intros j; simpl; constructor; [|apply IH].
  apply lxor_is_byte; [done|].
  destruct (Nat.lt_ge_cases j (length key)) as [Hlt|Hge].
  - rewrite List.Forall_forall in Hkey. apply Hkey. by apply nth_In.
  - rewrite nth_overflow by done. unfold is_byte. lia.
Qed.

Lemma Xor_bytes ss key :
  Forall is_byte key -> Forall is_byte ss ->
  Forall is_byte (CDataStream.Xor ss key).
Proof.
  intros Hkey Hss. unfold CDataStream.Xor.
  destruct (length key =? 0)%nat; [done|]. by apply Xor_loop_bytes.
Qed.

Example Xor_repeats_the_key :
  CDataStream.Xor [1; 2; 3; 4; 5] [255; 15] = [254; 13; 252; 11; 250].
Proof. reflexivity. Qed.

Example Xor_with_no_key : CDataStream.Xor [1; 2; 3] [] = [1; 2; 3].
Proof. reflexivity. Qed.

(** ** One call on a batch *)

Lemma payload_bytes_app b1 b2 :
  leveldb.payload_bytes (b1 ++ b2)
  = leveldb.payload_bytes b1 + leveldb.payload_bytes b2.
Proof. induction b1 as [|e b1 IH]; simpl; lia. Qed.

Lemma entry_bytes_pos e : 0 < leveldb.entry_bytes e.
Proof.
  pose proof length_prefix_varint as Hv. unfold length_prefix in Hv.
  destruct e as [k v|k]; simpl.
  - pose proof (Hv (size k)). pose proof (Hv (size v)).
    pose proof (size_nonneg k). pose proof (size_nonneg v).
    destruct (size k <=? 127), (size v <=? 127); lia.
  - pose proof (Hv (size k)). pose proof (size_nonneg k).
    destruct (size k <=? 127); lia.
Qed.

(** With empty scratch streams, a put appends the entry made of the
    call's own key and value and adds [Write_estimate] in [size_t]. *)
Lemma Write_from_empty {K V} {SK : Serializable K} {SV : Serializable V}
    (b : CDBBatch.t) (key : K) (value : V) :
  streams_empty b ->
  CDBBatch.Write b key value
  = {| CDBBatch.parent := CDBBatch.parent b;
       CDBBatch.batch :=
         CDBBatch.batch b
         ++ [leveldb.PutEntry (Serialize key)
               (CDataStream.Xor (Serialize value)
                  (obfuscate_key (CDBBatch.parent b)))];
       CDBBatch.ssKey := [];
       CDBBatch.ssValue := [];
       CDBBatch.size_estimate :=
         to_size_t (CDBBatch.size_estimate b
                    + Write_estimate (size (Serialize key))
                        (size (Serialize value))) |}.
Proof.
  destruct b as [w bt sk sv est]. intros [Hk Hv]. simpl in Hk, Hv. subst.
  unfold CDBBatch.Write, Write_estimate, CDataStream.write,
    CDataStream.reserve, CDataStream.data, CDataStream.clear,
    leveldb.WriteBatch.Put,
    dbwrapper_private.GetObfuscateKey.
  simpl. by rewrite Xor_size.
Qed.

Lemma Erase_from_empty {K} {SK : Serializable K} (b : CDBBatch.t) (key : K) :
  streams_empty b ->
  CDBBatch.Erase b key
  = {| CDBBatch.parent := CDBBatch.parent b;
       CDBBatch.batch :=
         CDBBatch.batch b ++ [leveldb.DeleteEntry (Serialize key)];
       CDBBatch.ssKey := [];
       CDBBatch.ssValue := [];
       CDBBatch.size_estimate :=
         to_size_t (CDBBatch.size_estimate b
                    + Erase_estimate (size (Serialize key))) |}.
Proof.
  destruct b as [w bt sk sv est]. intros [Hk Hv]. simpl in Hk, Hv. subst.
  reflexivity.
Qed.

Lemma call_keeps_streams_empty b c :
  streams_empty b -> streams_empty (call_batch b c).
Proof.
  intros He. destruct c; cbn [call_batch].
  - rewrite Write_from_empty by done. by split.
  - rewrite Erase_from_empty by done. by split.
  - exact He.
Qed.

Lemma call_keeps_parent b c :
  CDBBatch.parent (call_batch b c) = CDBBatch.parent b.
Proof. by destruct c. Qed.

Lemma calls_keep_streams_empty cs b :
  streams_empty b -> streams_empty (calls_batch b cs).
Proof.
  revert b. induction cs as [|c cs IH]; intros b He; simpl; [done|].
  apply IH. by apply call_keeps_streams_empty.
Qed.

Lemma calls_keep_parent cs b :
  CDBBatch.parent (calls_batch b cs) = CDBBatch.parent b.
Proof.
  revert b. induction cs as [|c cs IH]; intros b; simpl; [done|].
  by rewrite IH, call_keeps_parent.
Qed.

Lemma Write_estimate_bounds klen vlen :
  0 <= klen -> 0 <= vlen ->
  Write_estimate klen vlen
  = 1 + length_prefix klen + klen + length_prefix vlen + vlen
  /\ 3 <= Write_estimate klen vlen
  /\ Write_estimate klen vlen
     <= 1 + leveldb.varint_length klen + klen
        + leveldb.varint_length vlen + vlen.
Proof.
  intros Hk Hv. unfold Write_estimate.
  pose proof (length_prefix_varint klen).
  pose proof (length_prefix_varint vlen).
  pose proof (bool_to_size_prefix klen).
  pose proof (bool_to_size_prefix vlen).
  pose proof (bool_to_size_range (127 <? klen)).
  pose proof (bool_to_size_range (127 <? vlen)).
  lia.
Qed.

Lemma Erase_estimate_bounds klen :
  0 <= klen ->
  Erase_estimate klen = length_prefix klen + klen + 1
  /\ 2 <= Erase_estimate klen
  /\ Erase_estimate klen <= 1 + leveldb.varint_length klen + klen.
Proof.
  intros Hk. unfold Erase_estimate.
  pose proof (length_prefix_varint klen).
  pose proof (bool_to_size_prefix klen).
  pose proof (bool_to_size_range (127 <? klen)).
  lia.
Qed.

(** A put or delete on a batch whose estimate is below the bytes of its
    engine batch, and that fits in memory afterwards, adds to the estimate
    without wrapping, and keeps the estimate below the bytes. *)
Lemma update_estimate b c :
  streams_empty b ->
  0 <= CDBBatch.size_estimate b <= leveldb.payload_bytes (CDBBatch.batch b) ->
  fits_in_memory (call_batch b c) ->
  is_update c = true ->
  CDBBatch.size_estimate (call_batch b c)
  = CDBBatch.size_estimate b + call_estimate c
  /\ 2 <= call_estimate c
  /\ CDBBatch.size_estimate b + call_estimate c
     <= leveldb.payload_bytes (CDBBatch.batch (call_batch b c)).
Proof.
  intros He Hest Hfit Hup. unfold fits_in_memory in Hfit. revert Hfit.
  destruct c as [K V SK SV key value|K SK key|];
    cbn [call_batch call_estimate]; [| |discriminate].
  - rewrite Write_from_empty by done. simpl.
    rewrite payload_bytes_app. simpl. rewrite Xor_size.
    destruct (Write_estimate_bounds (size (Serialize key))
                (size (Serialize value))) as (_ & ? & ?);
      [apply size_nonneg | apply size_nonneg |].
    intros Hfit. rewrite to_size_t_small; lia.
  - rewrite Erase_from_empty by done. simpl.
    rewrite payload_bytes_app. simpl.
    destruct (Erase_estimate_bounds (size (Serialize key))) as (_ & ? & ?);
      [apply size_nonneg |].
    intros Hfit. rewrite to_size_t_small; lia.
Qed.

(** What holds of every batch a program can hold. *)
Lemma Reachable_invariant w b :
  Reachable w b ->
  CDBBatch.parent b = w
  /\ streams_empty b
  /\ 0 <= CDBBatch.size_estimate b <= leveldb.payload_bytes (CDBBatch.batch b)
  /\ leveldb.payload_bytes (CDBBatch.batch b) <= SIZE_MAX.
Proof.
  induction 1 as [|b c _ (Hp & He & Hest & Hmem) Hfit].
  - repeat split; simpl; try done; unfold SIZE_MAX; simpl; lia.
  - split; [by rewrite call_keeps_parent|].
    split; [by apply call_keeps_streams_empty|].
    split; [|exact Hfit].
    destruct (is_update c) eqn:Hup.
    + destruct (update_estimate b c He Hest Hfit Hup) as (-> & ? & ?). lia.
    + destruct c; try discriminate. simpl. lia.
Qed.

(** Puts and deletes only make the engine batch longer. *)
Lemma update_appends b c :
  is_update c = true ->
  exists e, CDBBatch.batch (call_batch b c) = CDBBatch.batch b ++ [e].
Proof.
  destruct c; [| |discriminate]; intros _; eexists; reflexivity.
Qed.

Lemma update_grows_payload b c :
  is_update c = true ->
  leveldb.payload_bytes (CDBBatch.batch b)
  < leveldb.payload_bytes (CDBBatch.batch (call_batch b c)).
Proof.
  intros Hup. destruct (update_appends b c Hup) as [e ->].
  rewrite payload_bytes_app. simpl.
  pose proof (entry_bytes_pos e). lia.
Qed.

Lemma updates_grow_payload cs b :
  forallb is_update cs = true ->
  leveldb.payload_bytes (CDBBatch.batch b)
  <= leveldb.payload_bytes (CDBBatch.batch (calls_batch b cs)).
Proof.
  revert b. induction cs as [|c cs IH]; intros b Hup; simpl; [lia|].
  simpl in Hup. apply andb_prop in Hup as [Hc Hcs].
  pose proof (update_grows_payload b c Hc).
  pose proof (IH (call_batch b c) Hcs). lia.
Qed.

(** A run of puts and deletes whose end fits in memory passes through
    reachable batches only. *)
Lemma updates_Reachable w cs b :
  Reachable w b ->
  forallb is_update cs = true ->
  fits_in_memory (calls_batch b cs) ->
  Reachable w (calls_batch b cs).
Proof.
  revert b. induction cs as [|c cs IH]; intros b Hr Hup Hfit; simpl; [done|].
  simpl in Hup. apply andb_prop in Hup as [Hc Hcs].
  apply IH; [|done|done].
  apply Reachable_call; [done|].
  unfold fits_in_memory in *. simpl in Hfit.
  pose proof (updates_grow_payload cs (call_batch b c) Hcs). lia.
Qed.

Lemma update_increases w b c :
  Reachable w b ->
  is_update c = true ->
  fits_in_memory (call_batch b c) ->
  CDBBatch.size_estimate b < CDBBatch.size_estimate (call_batch b c).
Proof.
  intros Hr Hup Hfit.
  destruct (Reachable_invariant w b Hr) as (_ & He & Hest & _).
  destruct (update_estimate b c He Hest Hfit Hup) as (-> & ? & _). lia.
Qed.

Lemma updates_do_not_decrease w cs b :
  Reachable w b ->
  forallb is_update cs = true ->
  fits_in_memory (calls_batch b cs) ->
  CDBBatch.size_estimate b <= CDBBatch.size_estimate (calls_batch b cs).
Proof.
  revert b. induction cs as [|c cs IH]; intros b Hr Hup Hfit; simpl; [lia|].
  simpl in Hup. apply andb_prop in Hup as [Hc Hcs].
  assert (fits_in_memory (call_batch b c)) as Hfc.
  { unfold fits_in_memory in *. simpl in Hfit.
    pose proof (updates_grow_payload cs (call_batch b c) Hcs). lia. }
  pose proof (update_increases w b c Hr Hc Hfc).
  pose proof (IH (call_batch b c) (Reachable_call w b c Hr Hfc) Hcs Hfit).
  lia.
Qed.

Lemma prefix_fits_in_memory b pre post :
  forallb is_update post = true ->
  fits_in_memory (calls_batch b (pre ++ post)) ->
  fits_in_memory (calls_batch b pre).
Proof.
  unfold fits_in_memory, calls_batch. rewrite fold_left_app.
  intros Hup Hfit.
  pose proof (updates_grow_payload post (fold_left call_batch pre b) Hup) as Hg.
  unfold calls_batch in Hg. lia.
Qed.

Lemma history_streams_empty w cs :
  streams_empty (calls_batch (CDBBatch.new w) cs).
Proof. apply calls_keep_streams_empty. by split. Qed.

Lemma history_parent w cs :
  CDBBatch.parent (calls_batch (CDBBatch.new w) cs) = w.
Proof. by rewrite calls_keep_parent. Qed.

(** ** The size estimate of a batch *)

(** The formulas of the specification count one byte more than the code,
    at every length. *)
Lemma Spec_put_increase_one_more klen vlen :
  Spec.put_increase klen vlen = Write_estimate klen vlen + 1.
Proof.
  unfold Spec.put_increase, Spec.framing_overhead, Write_estimate,
    bool_to_size.
  destruct (Z.leb_spec klen 127), (Z.ltb_spec 127 klen),
    (Z.leb_spec vlen 127), (Z.ltb_spec 127 vlen); lia.
Qed.

Lemma Spec_delete_increase_one_more klen :
  Spec.delete_increase klen = Erase_estimate klen + 1.
Proof.
  unfold Spec.delete_increase, Spec.framing_overhead, Erase_estimate,
    bool_to_size.
  destruct (Z.leb_spec klen 127), (Z.ltb_spec 127 klen); lia.
Qed.

(** C2 (amended). On every batch a program can hold, a single
    [CDBBatch::Write(key, value)] raises the size estimate by exactly
    [1 + length_prefix(key) + key_len + length_prefix(value) + value_len]:
    one header byte and, for each field, a length prefix of 1 byte when
    the field has at most 127 bytes and of 2 bytes otherwise. This is the
    code's [3 + (k > 127) + k + (v > 127) + v]; the lengths are those of
    the serialized key and value. The sum is a [size_t] sum; it is the
    plain sum whenever the engine batch fits in memory. *)
Theorem Write_size_estimate w b {K V} {SK : Serializable K}
    {SV : Serializable V} (key : K) (value : V) :
  Reachable w b ->
  let increase :=
    1 + length_prefix (size (Serialize key)) + size (Serialize key)
    + length_prefix (size (Serialize value)) + size (Serialize value) in
  CDBBatch.SizeEstimate (CDBBatch.Write b key value)
  = to_size_t (CDBBatch.SizeEstimate b + increase)
  /\ (fits_in_memory (CDBBatch.Write b key value) ->
      CDBBatch.SizeEstimate (CDBBatch.Write b key value)
      = CDBBatch.SizeEstimate b + increase).
Proof.
  intros Hr increase.
  destruct (Reachable_invariant w b Hr) as (_ & He & Hest & _).
  destruct (Write_estimate_bounds (size (Serialize key))
              (size (Serialize value))) as (Hinc & _ & _);
    [apply size_nonneg | apply size_nonneg |].
  fold increase in Hinc. split.
  - rewrite (Write_from_empty b key value He). simpl. by rewrite Hinc.
  - intros Hfit.
    destruct (update_estimate b (CallWrite key value) He Hest Hfit eq_refl)
      as (Heq & _ & _).
    cbn [call_batch call_estimate] in Heq. unfold CDBBatch.SizeEstimate.
    by rewrite Heq, Hinc.
Qed.

Lemma Write_size_estimate_witness :
  Reachable sample_wrapper (CDBBatch.new sample_wrapper)
  /\ fits_in_memory (CDBBatch.Write (CDBBatch.new sample_wrapper) long_key true)
  /\ CDBBatch.SizeEstimate
       (CDBBatch.Write (CDBBatch.new sample_wrapper) long_key true)
     = CDBBatch.SizeEstimate (CDBBatch.new sample_wrapper)
       + (1 + length_prefix (size (Serialize long_key))
          + size (Serialize long_key)
          + length_prefix (size (Serialize true)) + size (Serialize true)).
Proof.
  split; [apply Reachable_new|].
  split; [vm_compute; discriminate|].
  apply (Write_size_estimate sample_wrapper);
    [apply Reachable_new | vm_compute; discriminate].
Defined.

(** C2 as the specification words it fails: on a fresh batch, a put of a
    one-byte key and a one-byte value raises the estimate by 5, not by
    the 6 of [framing_overhead(key) + key_len + framing_overhead(value)
    + value_len] with a framing overhead of 2. *)
Lemma Write_size_estimate_counterexample :
  CDBBatch.SizeEstimate
    (CDBBatch.Write (CDBBatch.new sample_wrapper) true false)
  <> CDBBatch.SizeEstimate (CDBBatch.new sample_wrapper)
     + Spec.put_increase (size (Serialize true)) (size (Serialize false)).
Proof. vm_compute. discriminate. Qed.

(** C3 (amended). On every batch a program can hold, a single
    [CDBBatch::Erase(key)] raises the size estimate by exactly
    [length_prefix(key) + key_len + 1], the length prefix being 1 byte
    when the serialized key has at most 127 bytes and 2 bytes otherwise:
    the code's [2 + (k > 127) + k]. The sum is a [size_t] sum; it is the
    plain sum whenever the engine batch fits in memory. *)
Theorem Erase_size_estimate w b {K} {SK : Serializable K} (key : K) :
  Reachable w b ->
  let increase :=
    length_prefix (size (Serialize key)) + size (Serialize key) + 1 in
  CDBBatch.SizeEstimate (CDBBatch.Erase b key)
  = to_size_t (CDBBatch.SizeEstimate b + increase)
  /\ (fits_in_memory (CDBBatch.Erase b key) ->
      CDBBatch.SizeEstimate (CDBBatch.Erase b key)
      = CDBBatch.SizeEstimate b + increase).
Proof.
  intros Hr increase.
  destruct (Reachable_invariant w b Hr) as (_ & He & Hest & _).
  destruct (Erase_estimate_bounds (size (Serialize key))) as (Hinc & _ & _);
    [apply size_nonneg |].
  fold increase in Hinc. split.
  - rewrite (Erase_from_empty b key He). simpl. by rewrite Hinc.
  - intros Hfit.
    destruct (update_estimate b (CallErase key) He Hest Hfit eq_refl)
      as (Heq & _ & _).
    cbn [call_batch call_estimate] in Heq. unfold CDBBatch.SizeEstimate.
    by rewrite Heq, Hinc.
Qed.

Lemma Erase_size_estimate_witness :
  Reachable sample_wrapper (CDBBatch.new sample_wrapper)
  /\ fits_in_memory (CDBBatch.Erase (CDBBatch.new sample_wrapper) long_key)
  /\ CDBBatch.SizeEstimate
       (CDBBatch.Erase (CDBBatch.new sample_wrapper) long_key)
     = CDBBatch.SizeEstimate (CDBBatch.new sample_wrapper)
       + (length_prefix (size (Serialize long_key))
          + size (Serialize long_key) + 1).
Proof.
  split; [apply Reachable_new|].
  split; [vm_compute; discriminate|].
  apply (Erase_size_estimate sample_wrapper);
    [apply Reachable_new | vm_compute; discriminate].
Defined.

(** C3 as the specification words it fails: on a fresh batch, a delete of
    a one-byte key raises the estimate by 3, not by the 4 of
    [framing_overhead(key) + key_len + 1] with a framing overhead of 2. *)
Lemma Erase_size_estimate_counterexample :
  CDBBatch.SizeEstimate (CDBBatch.Erase (CDBBatch.new sample_wrapper) true)
  <> CDBBatch.SizeEstimate (CDBBatch.new sample_wrapper)
     + Spec.delete_increase (size (Serialize true)).
Proof. vm_compute. discriminate. Qed.

(** C7. Over any run of [Write] and [Erase] calls (no [Clear]) on a batch
    a program can hold, the run ending in an engine batch that fits in
    memory, [SizeEstimate()] is strictly larger after each single call
    than before it, and never smaller after more calls than after
    fewer. *)
Theorem SizeEstimate_monotone w b cs :
  Reachable w b ->
  forallb is_update cs = true ->
  fits_in_memory (calls_batch b cs) ->
  (forall pre c post,
      cs = pre ++ c :: post ->
      CDBBatch.SizeEstimate (calls_batch b pre)
      < CDBBatch.SizeEstimate (call_batch (calls_batch b pre) c))
  /\ (forall pre mid post,
      cs = pre ++ mid ++ post ->
      CDBBatch.SizeEstimate (calls_batch b pre)
      <= CDBBatch.SizeEstimate (calls_batch b (pre ++ mid))).
Proof.
  intros Hr Hup Hfit. split.
  - intros pre c post ->.
    rewrite forallb_app in Hup. apply andb_prop in Hup as [Hpre Hrest].
    simpl in Hrest. apply andb_prop in Hrest as [Hc Hpost].
    assert (fits_in_memory (calls_batch b (pre ++ [c]))) as Hfc.
    { apply (prefix_fits_in_memory b (pre ++ [c]) post Hpost).
      by rewrite <- app_assoc. }
    assert (fits_in_memory (calls_batch b pre)) as Hfp.
    { apply (prefix_fits_in_memory b pre [c]); [simpl; by rewrite Hc|done]. }
    unfold calls_batch in Hfc. rewrite fold_left_app in Hfc. simpl in Hfc.
    apply (update_increases w); [|done|done].
    by apply updates_Reachable.
  - intros pre mid post ->.
    rewrite !forallb_app in Hup. apply andb_prop in Hup as [Hpre Hrest].
    apply andb_prop in Hrest as [Hmid Hpost].
    assert (fits_in_memory (calls_batch b (pre ++ mid))) as Hfm.
    { apply (prefix_fits_in_memory b (pre ++ mid) post Hpost).
      by rewrite <- app_assoc. }
    assert (fits_in_memory (calls_batch b pre)) as Hfp.
    { by apply (prefix_fits_in_memory b pre mid). }
    unfold calls_batch in Hfm |- *. rewrite fold_left_app in Hfm |- *.
    apply (updates_do_not_decrease w); [|done|done].
    by apply updates_Reachable.
Qed.

Lemma SizeEstimate_monotone_witness :
  let cs := [CallWrite true false; CallErase true; CallWrite long_key true] in
  let b := CDBBatch.new sample_wrapper in
  Reachable sample_wrapper b
  /\ forallb is_update cs = true
  /\ fits_in_memory (calls_batch b cs)
  /\ CDBBatch.SizeEstimate (calls_batch b [CallWrite true false])
     < CDBBatch.SizeEstimate
         (call_batch (calls_batch b [CallWrite true false]) (CallErase true)).
Proof.
  intros cs b.
  assert (Reachable sample_wrapper b) as Hr by apply Reachable_new.
  assert (forallb is_update cs = true) as Hup by reflexivity.
  assert (fits_in_memory (calls_batch b cs)) as Hfit
    by (vm_compute; discriminate).
  split; [exact Hr|]. split; [exact Hup|]. split; [exact Hfit|].
  exact (proj1 (SizeEstimate_monotone sample_wrapper b cs Hr Hup Hfit)
           [CallWrite true false] (CallErase true) [CallWrite long_key true]
           eq_refl).
Defined.

(** C8. On a batch in any state, [Clear()] leaves an engine batch with no
    entry, so that committing it changes no store, and makes
    [SizeEstimate()] return 0. *)
Theorem Clear_drops_everything b :
  CDBBatch.batch (CDBBatch.Clear b) = []
  /\ (forall m, Model.apply_batch m (CDBBatch.batch (CDBBatch.Clear b)) = m)
  /\ CDBBatch.SizeEstimate (CDBBatch.Clear b) = 0.
Proof. repeat split. Qed.

Example estimate_of_short_put :
  CDBBatch.SizeEstimate
    (CDBBatch.Write (CDBBatch.new sample_wrapper) true false)
  = 5.
Proof. reflexivity. Qed.

Example estimate_of_long_put :
  CDBBatch.SizeEstimate
    (CDBBatch.Write (CDBBatch.new sample_wrapper) long_key true)
  = 133.
Proof. reflexivity. Qed.

Example estimate_of_long_delete :
  CDBBatch.SizeEstimate (CDBBatch.Erase (CDBBatch.new sample_wrapper) long_key)
  = 131.
Proof. reflexivity. Qed.

Example estimate_after_Clear :
  CDBBatch.SizeEstimate
    (calls_batch (CDBBatch.new sample_wrapper)
       [CallWrite true false; CallErase long_key; CallClear;
        CallErase true])
  = 3.
Proof. reflexivity. Qed.

(** C10. After any history of calls on a batch, a further [Write] or
    [Erase] leaves both scratch streams [ssKey] and [ssValue] empty, and
    what it appends to the engine batch is made of its own arguments only,
    with no byte left over from earlier calls: the encoded key and, for a
    put, the encoded value obfuscated with the store's key. *)
Theorem scratch_streams_empty_after_call w cs {K V} {SK : Serializable K}
    {SV : Serializable V} (key : K) (value : V) :
  let b := calls_batch (CDBBatch.new w) cs in
  (CDBBatch.ssKey (CDBBatch.Write b key value) = []
   /\ CDBBatch.ssValue (CDBBatch.Write b key value) = []
   /\ CDBBatch.batch (CDBBatch.Write b key value)
      = CDBBatch.batch b
        ++ [leveldb.PutEntry (Serialize key)
              (CDataStream.Xor (Serialize value) (obfuscate_key w))])
  /\ (CDBBatch.ssKey (CDBBatch.Erase b key) = []
      /\ CDBBatch.ssValue (CDBBatch.Erase b key) = []
      /\ CDBBatch.batch (CDBBatch.Erase b key)
         = CDBBatch.batch b ++ [leveldb.DeleteEntry (Serialize key)]).
Proof.
  intros b.
  pose proof (history_streams_empty w cs) as He.
  pose proof (history_parent w cs) as Hp. fold b in He, Hp.
  rewrite (Write_from_empty b key value He), (Erase_from_empty b key He).
  simpl. by rewrite Hp.
Qed.

(** ** Reading from the store *)

(** [Read] on a hit: the stored bytes are de-obfuscated and decoded, and a
    failure to decode gives [return false]. *)
Lemma run_Read_hit {S} (h : Engine DBAnswer S) (s s' : S) w
    {K V} {SK : Serializable K} {SV : Serializable V} (key : K) stored :
  h (Get (Serialize key)) s = ((leveldb.OK, stored), s') ->
  run h s (CDBWrapper.Read (V:=V) w key)
  = (Returns (Unserialize (CDataStream.Xor stored (obfuscate_key w))), s').
Proof.
  intros Hget. unfold CDBWrapper.Read, CDataStream.write, CDataStream.reserve,
    CDataStream.data,
    CDataStream.read, CDataStream.of_bytes, CDataStream.empty.
  simpl. rewrite Hget. simpl.
  by destruct (Unserialize _).
Qed.

Lemma run_Read_not_found {S} (h : Engine DBAnswer S) (s s' : S) w
    {K V} {SK : Serializable K} {SV : Serializable V} (key : K) junk :
  h (Get (Serialize key)) s = ((leveldb.NotFound, junk), s') ->
  run h s (CDBWrapper.Read (V:=V) w key) = (Returns None, s').
Proof.
  intros Hget. unfold CDBWrapper.Read, CDataStream.write, CDataStream.reserve,
    CDataStream.data,
    CDataStream.empty.
  simpl. by rewrite Hget.
Qed.

Lemma run_Exists_hit {S} (h : Engine DBAnswer S) (s s' : S) w
    {K} {SK : Serializable K} (key : K) stored :
  h (Get (Serialize key)) s = ((leveldb.OK, stored), s') ->
  run h s (CDBWrapper.Exists w key) = (Returns true, s').
Proof.
  intros Hget. unfold CDBWrapper.Exists, CDataStream.write, CDataStream.reserve,
    CDataStream.data,
    CDataStream.empty.
  simpl. by rewrite Hget.
Qed.

Example Read_of_missing_key :
  run Model.db empty_db (CDBWrapper.Read (V:=bool) sample_wrapper true)
  = (Returns None, empty_db).
Proof. reflexivity. Qed.

Example Read_on_failing_engine :
  run Model.db failing_db (CDBWrapper.Read (V:=bool) sample_wrapper true)
  = (Throws (dbwrapper_error_of leveldb.IOError), failing_db).
Proof. reflexivity. Qed.

Example Exists_on_failing_engine :
  run Model.db failing_db (CDBWrapper.Exists sample_wrapper true)
  = (Throws (dbwrapper_error_of leveldb.IOError), failing_db).
Proof. reflexivity. Qed.

Example Write_on_failing_engine :
  run Model.db failing_db (CDBWrapper.Write sample_wrapper true false true)
  = (Throws (dbwrapper_error_of leveldb.IOError), failing_db).
Proof. reflexivity. Qed.

Example Write_then_Read_uint8 :
  fst (run Model.db written_db
         (CDBWrapper.Write plain_wrapper Byte.x2a Byte.xff false ;;
          CDBWrapper.Read plain_wrapper Byte.x2a))
  = Returns (Some Byte.xff).
Proof. reflexivity. Qed.

(** C5. Whatever the engine, when its lookup for the encoded key succeeds
    and the bytes it gives do not decode, after de-obfuscation, as a [V],
    [Read] returns false: it returns, with the result it also has when the
    engine reports not-found, and throws nothing. *)
Theorem Read_decode_failure_is_false {S} (h : Engine DBAnswer S) (s s' : S) w
    {K V} {SK : Serializable K} {SV : Serializable V} (key : K) stored :
  h (Get (Serialize key)) s = ((leveldb.OK, stored), s') ->
  Unserialize (T:=V) (CDataStream.Xor stored (obfuscate_key w)) = None ->
  run h s (CDBWrapper.Read (V:=V) w key) = (Returns None, s')
  /\ (forall (t t' : S) junk,
        h (Get (Serialize key)) t = ((leveldb.NotFound, junk), t') ->
        fst (run h t (CDBWrapper.Read (V:=V) w key))
        = fst (run h s (CDBWrapper.Read (V:=V) w key))).
Proof.
  intros Hget Hdec.
  assert (run h s (CDBWrapper.Read (V:=V) w key) = (Returns None, s')) as Hr
    by (by rewrite (run_Read_hit h s s' w key stored Hget), Hdec).
  split; [exact Hr|].
  intros t t' junk Hnf.
  by rewrite Hr, (run_Read_not_found h t t' w key junk Hnf).
Qed.

Lemma Read_decode_failure_is_false_witness :
  Model.db (Get (Serialize true)) odd_db = ((leveldb.OK, []), odd_db)
  /\ Unserialize (T:=bool) (CDataStream.Xor [] (obfuscate_key sample_wrapper))
     = None
  /\ run Model.db odd_db (CDBWrapper.Read (V:=bool) sample_wrapper true)
     = (Returns None, odd_db).
Proof.
  split; [reflexivity|]. split; [reflexivity|].
  exact (proj1 (Read_decode_failure_is_false (V:=bool) Model.db odd_db odd_db
                  sample_wrapper true [] eq_refl eq_refl)).
Defined.

(** C9. There are a store and a key on which [Exists] and [Read]
    disagree: whatever the engine, when it holds for the encoded key bytes
    that do not decode, after de-obfuscation, as a [V], [Exists] returns
    true, without looking at the bytes, and [Read] returns false. Such a
    store is one where the key of [true] holds an empty value, read as a
    [bool]. *)
Theorem Exists_and_Read_disagree :
  (forall S (h : Engine DBAnswer S) (s s' : S) w
      {K V} {SK : Serializable K} {SV : Serializable V} (key : K) stored,
      h (Get (Serialize key)) s = ((leveldb.OK, stored), s') ->
      Unserialize (T:=V) (CDataStream.Xor stored (obfuscate_key w)) = None ->
      run h s (CDBWrapper.Exists w key) = (Returns true, s')
      /\ run h s (CDBWrapper.Read (V:=V) w key) = (Returns None, s'))
  /\ (exists (s : Model.DB) w (key : bool),
        run Model.db s (CDBWrapper.Exists w key) = (Returns true, s)
        /\ run Model.db s (CDBWrapper.Read (V:=bool) w key)
           = (Returns None, s)).
Proof.
  split.
  - intros S h s s' w K V SK SV key stored Hget Hdec. split.
    + by apply (run_Exists_hit h s s' w key stored).
    + by rewrite (run_Read_hit h s s' w key stored Hget), Hdec.
  - exists odd_db, sample_wrapper, true. by split.
Qed.

Lemma Exists_and_Read_disagree_witness :
  Model.db (Get (Serialize true)) odd_db = ((leveldb.OK, []), odd_db)
  /\ Unserialize (T:=bool) (CDataStream.Xor [] (obfuscate_key sample_wrapper))
     = None
  /\ run Model.db odd_db (CDBWrapper.Exists sample_wrapper true)
     = (Returns true, odd_db)
  /\ run Model.db odd_db (CDBWrapper.Read (V:=bool) sample_wrapper true)
     = (Returns None, odd_db).
Proof.
  split; [reflexivity|]. split; [reflexivity|].
  exact (proj1 Exists_and_Read_disagree Model.DB Model.db odd_db odd_db
           sample_wrapper bool bool _ _ true [] eq_refl eq_refl).
Defined.

(** ** Obfuscation on the write path and on the read path *)

Lemma run_GetValue {S} (h : Engine IterAnswer S) (s s' : S) it
    {V} {SV : Serializable V} stored :
  h IterValue s = (stored, s') ->
  run h s (CDBIterator.GetValue (V:=V) it)
  = (Returns (Unserialize
                (CDataStream.Xor stored
                   (obfuscate_key (CDBIterator.parent it)))),
     s').
Proof.
  intros Hval. unfold CDBIterator.GetValue, CDataStream.read,
    CDataStream.of_bytes, dbwrapper_private.GetObfuscateKey.
  simpl. rewrite Hval.
  by destruct (Unserialize _).
Qed.

(** C4. Obfuscating twice with the same key gives the bytes back, for all
    bytes and all keys; a key of zeros leaves the bytes as they are; and
    so, when the engine gives back the value bytes a write handed to it,
    [Read] and the iterator's [GetValue] decode exactly the encoding of
    the written value. *)
Theorem Xor_involution :
  (forall v k : bytes, CDataStream.Xor (CDataStream.Xor v k) k = v)
  /\ (forall v k : bytes, all_zero k -> CDataStream.Xor v k = v)
  /\ (forall w {K V} {SK : Serializable K} {SV : Serializable V}
        (key : K) (value : V),
        let stored := CDataStream.Xor (Serialize value) (obfuscate_key w) in
        CDBBatch.batch (CDBBatch.Write (CDBBatch.new w) key value)
        = [leveldb.PutEntry (Serialize key) stored]
        /\ (forall S (h : Engine DBAnswer S) (s s' : S),
              h (Get (Serialize key)) s = ((leveldb.OK, stored), s') ->
              run h s (CDBWrapper.Read (V:=V) w key)
              = (Returns (Unserialize (Serialize value)), s'))
        /\ (forall S (h : Engine IterAnswer S) (s s' : S) it,
              CDBIterator.parent it = w ->
              h IterValue s = (stored, s') ->
              run h s (CDBIterator.GetValue (V:=V) it)
              = (Returns (Unserialize (Serialize value)), s'))).
Proof.
  split; [exact Xor_involutive|]. split; [exact Xor_zero|].
  intros w K V SK SV key value stored. split; [|split].
  - rewrite Write_from_empty by (by split). reflexivity.
  - intros S h s s' Hget.
    rewrite (run_Read_hit h s s' w key stored Hget).
    unfold stored. by rewrite Xor_involutive.
  - intros S h s s' it <- Hval.
    rewrite (run_GetValue h s s' it stored Hval).
    unfold stored. by rewrite Xor_involutive.
Qed.

Lemma Xor_involution_witness :
  all_zero (obfuscate_key plain_wrapper)
  /\ CDataStream.Xor [222; 173; 190; 239; 7] (obfuscate_key plain_wrapper)
     = [222; 173; 190; 239; 7]
  /\ Model.db (Get (Serialize true)) written_db
     = ((leveldb.OK,
         CDataStream.Xor (Serialize false) (obfuscate_key sample_wrapper)),
        written_db)
  /\ run Model.db written_db (CDBWrapper.Read (V:=bool) sample_wrapper true)
     = (Returns (Unserialize (Serialize false)), written_db)
  /\ Model.cursor IterValue written_cursor
     = (CDataStream.Xor (Serialize false) (obfuscate_key sample_wrapper),
        written_cursor)
  /\ run Model.cursor written_cursor
       (CDBIterator.GetValue (V:=bool) (CDBIterator.mk sample_wrapper))
     = (Returns (Unserialize (Serialize false)), written_cursor).
Proof.
  assert (all_zero (obfuscate_key plain_wrapper)) as Hz
    by (repeat constructor).
  split; [exact Hz|].
  split; [exact (proj1 (proj2 Xor_involution) _ _ Hz)|].
  split; [reflexivity|].
  split.
  - exact (proj1 (proj2 (proj2 (proj2 Xor_involution) sample_wrapper
                                  bool bool _ _ true false))
             Model.DB Model.db written_db written_db eq_refl).
  - split; [reflexivity|].
    exact (proj2 (proj2 (proj2 (proj2 Xor_involution) sample_wrapper
                                  bool bool _ _ true false))
             Model.Cursor Model.cursor written_cursor written_cursor
             (CDBIterator.mk sample_wrapper) eq_refl eq_refl).
Defined.

(** ** Writing to the store, then reading *)

Lemma run_Write w (s : Model.DB) {K V} {SK : Serializable K}
    {SV : Serializable V} (key : K) (value : V) fSync :
  run Model.db s (CDBWrapper.Write w key value fSync)
  = match Model.fault s with
    | Some f => (Throws (dbwrapper_error_of (Model.fault_status f)), s)
    | None =>
        (Returns true,
         {| Model.table :=
              <[Serialize key :=
                  CDataStream.Xor (Serialize value) (obfuscate_key w)]>
                (Model.table s);
            Model.fault := None |})
    end.
Proof.
  unfold CDBWrapper.Write, CDBWrapper.WriteBatch.
  rewrite Write_from_empty by (by split). simpl.
  destruct (Model.fault s) as [f|]; simpl; [by destruct f|done].
Qed.

(** C1. On a store whose engine works, [Write(key, value)] returns true;
    and whenever [Write] has returned, a [Read(key)] on the store it left
    returns true with exactly [value], for every key and for every value
    of a type whose decoding inverts its encoding. *)
Theorem Write_then_Read w (s : Model.DB) {K V} {SK : Serializable K}
    {SV : Serializable V} (key : K) (value : V) fSync :
  (forall v : V, Unserialize (Serialize v) = Some v) ->
  (Model.fault s = None ->
   exists s', run Model.db s (CDBWrapper.Write w key value fSync)
              = (Returns true, s'))
  /\ (forall s',
        run Model.db s (CDBWrapper.Write w key value fSync)
        = (Returns true, s') ->
        run Model.db s' (CDBWrapper.Read w key) = (Returns (Some value), s')).
Proof.
  intros Hrt. rewrite run_Write. split.
  - intros ->. eauto.
  - intros s'. destruct (Model.fault s) as [f|]; [discriminate|].
    intros [= <-].
    erewrite (run_Read_hit Model.db);
      [|simpl; rewrite lookup_insert_eq; reflexivity].
    by rewrite Xor_involutive, Hrt.
Qed.

Lemma Write_then_Read_witness :
  (forall v : bool, Unserialize (Serialize v) = Some v)
  /\ run Model.db empty_db (CDBWrapper.Write sample_wrapper true false false)
     = (Returns true, written_db)
  /\ run Model.db written_db (CDBWrapper.Read sample_wrapper true)
     = (Returns (Some false), written_db).
Proof.
  assert (forall v : bool, Unserialize (Serialize v) = Some v) as Hrt
    by (by intros []).
  split; [exact Hrt|]. split; [reflexivity|].
  exact (proj2 (Write_then_Read sample_wrapper empty_db true false false Hrt)
           written_db eq_refl).
Defined.

(** ** What reaches the engine *)

(** C6. In every operation of the layer the key bytes handed to the engine
    are exactly the encoding of the typed key, whatever the obfuscation
    key and whatever the engine answers; the obfuscation appears only in
    the value bytes of a put. This holds for the entries [CDBBatch::Write]
    and [CDBBatch::Erase] append after any history of the batch, for the
    single engine call made by [Read], [Exists], [Write], [Erase],
    [EstimateSize] and [CompactRange], and for the iterator's [Seek];
    and [GetKey] decodes the engine's key bytes as they are. *)
Theorem keys_are_never_obfuscated w {K V} {SK : Serializable K}
    {SV : Serializable V} (key key_end : K) (value : V) :
  (forall cs,
      let b := calls_batch (CDBBatch.new w) cs in
      CDBBatch.batch (CDBBatch.Write b key value)
      = CDBBatch.batch b
        ++ [leveldb.PutEntry (Serialize key)
              (CDataStream.Xor (Serialize value) (obfuscate_key w))]
      /\ CDBBatch.batch (CDBBatch.Erase b key)
         = CDBBatch.batch b ++ [leveldb.DeleteEntry (Serialize key)])
  /\ (forall S (h : Engine DBAnswer S) (s : S) fSync,
        trace h s (CDBWrapper.Read (V:=V) w key) = [Get (Serialize key)]
        /\ trace h s (CDBWrapper.Exists w key) = [Get (Serialize key)]
        /\ trace h s (CDBWrapper.Write w key value fSync)
           = [DBWrite fSync
                [leveldb.PutEntry (Serialize key)
                   (CDataStream.Xor (Serialize value) (obfuscate_key w))]]
        /\ trace h s (CDBWrapper.Erase w key fSync)
           = [DBWrite fSync [leveldb.DeleteEntry (Serialize key)]]
        /\ trace h s (CDBWrapper.EstimateSize w key key_end)
           = [GetApproximateSizes (Serialize key) (Serialize key_end)]
        /\ trace h s (CDBWrapper.CompactRange w key key_end)
           = [DBCompactRange (Serialize key) (Serialize key_end)])
  /\ (forall S (h : Engine IterAnswer S) (s : S) it,
        trace h s (CDBIterator.Seek it key) = [IterSeek (Serialize key)]
        /\ run h s (CDBIterator.GetKey (K:=K) it)
           = (Returns (Unserialize (fst (h IterKey s))), snd (h IterKey s))).
Proof.
  split; [|split].
  - intros cs b.
    pose proof (history_streams_empty w cs) as He.
    pose proof (history_parent w cs) as Hp. fold b in He, Hp.
    rewrite (Write_from_empty b key value He), (Erase_from_empty b key He).
    simpl. by rewrite Hp.
  - intros S h s fSync. repeat split.
    + unfold CDBWrapper.Read, CDataStream.write, CDataStream.reserve,
    CDataStream.data,
        CDataStream.read, CDataStream.empty. simpl.
      destruct (h (Get (Serialize key)) s) as [[status strValue] s'].
      destruct status; simpl; try done; by destruct (Unserialize _).
    + unfold CDBWrapper.Exists, CDataStream.write, CDataStream.reserve,
    CDataStream.data,
        CDataStream.empty. simpl.
      destruct (h (Get (Serialize key)) s) as [[status strValue] s'].
      by destruct status.
    + unfold CDBWrapper.Write, CDBWrapper.WriteBatch.
      rewrite Write_from_empty by (by split). simpl.
      destruct (h _ s) as [status s']. by destruct status.
    + unfold CDBWrapper.Erase, CDBWrapper.WriteBatch.
      rewrite Erase_from_empty by (by split). simpl.
      destruct (h _ s) as [status s']. by destruct status.
    + unfold CDBWrapper.EstimateSize, CDataStream.write,
        CDataStream.reserve, CDataStream.data,
        CDataStream.empty. simpl.
      by destruct (h _ s).
    + unfold CDBWrapper.CompactRange, CDataStream.write,
        CDataStream.reserve, CDataStream.data,
        CDataStream.empty. simpl.
      by destruct (h _ s).
  - intros S h s it. split.
    + unfold CDBIterator.Seek, CDataStream.write, CDataStream.reserve,
        CDataStream.data, CDataStream.empty. simpl.
      by destruct (h _ s).
    + unfold CDBIterator.GetKey, CDataStream.read, CDataStream.of_bytes.
      simpl. destruct (h IterKey s) as [slKey s']. simpl.
      by destruct (Unserialize slKey).
Qed.

(** * Further properties of the layer *)

(** ** Running programs *)

Lemma run_bind {call} {answer : call -> Type} {S A B}
    (h : Engine answer S) (s : S) (p : Prog answer A) (f : A -> Prog answer B) :
  run h s (bind p f)
  = match run h s p with
    | (Returns a, s') => run h s' (f a)
    | (Throws e, s') => (Throws e, s')
    end.
Proof.
  revert s. induction p as [a|e|c k IH]; intros s; simpl; [done|done|].
  destruct (h c s) as [r s']. apply IH.
Qed.

Lemma DB_eta (s : Model.DB) :
  Model.fault s = None ->
  {| Model.table := Model.table s; Model.fault := None |} = s.
Proof. destruct s as [m f]. simpl. by intros ->. Qed.

Lemma run_Erase w (s : Model.DB) {K} {SK : Serializable K} (key : K) fSync :
  run Model.db s (CDBWrapper.Erase w key fSync)
  = match Model.fault s with
    | Some f => (Throws (dbwrapper_error_of (Model.fault_status f)), s)
    | None =>
        (Returns true,
         {| Model.table := delete (Serialize key) (Model.table s);
            Model.fault := None |})
    end.
Proof.
  unfold CDBWrapper.Erase, CDBWrapper.WriteBatch.
  rewrite Erase_from_empty by (by split). simpl.
  destruct (Model.fault s) as [f|]; simpl; [by destruct f|done].
Qed.

Lemma run_WriteBatch w (s : Model.DB) (b : CDBBatch.t) fSync :
  run Model.db s (CDBWrapper.WriteBatch w b fSync)
  = match Model.fault s with
    | Some f => (Throws (dbwrapper_error_of (Model.fault_status f)), s)
    | None =>
        (Returns true,
         {| Model.table := Model.apply_batch (Model.table s) (CDBBatch.batch b);
            Model.fault := None |})
    end.
Proof.
  unfold CDBWrapper.WriteBatch. simpl.
  destruct (Model.fault s) as [f|]; simpl; [by destruct f|done].
Qed.

(** [Read] and [Exists] on a working engine, by what the table holds. *)
Lemma run_Read_table w (s : Model.DB) {K V} {SK : Serializable K}
    {SV : Serializable V} (key : K) :
  Model.fault s = None ->
  run Model.db s (CDBWrapper.Read (V:=V) w key)
  = (Returns
       (match (Model.table s !! Serialize key : option bytes) with
        | Some stored =>
            Unserialize (CDataStream.Xor stored (obfuscate_key w))
        | None => None
        end), s).
Proof.
  intros Hok.
  destruct (Model.table s !! Serialize key) as [stored|] eqn:Hlook.
  - apply run_Read_hit. unfold Model.db. by rewrite Hok, Hlook.
  - apply (run_Read_not_found _ _ _ _ _ []). unfold Model.db.
    by rewrite Hok, Hlook.
Qed.

Lemma run_Exists_table w (s : Model.DB) {K} {SK : Serializable K} (key : K) :
  Model.fault s = None ->
  run Model.db s (CDBWrapper.Exists w key)
  = (Returns (bool_decide (is_Some (Model.table s !! Serialize key))), s).
Proof.
  intros Hok. unfold CDBWrapper.Exists, CDataStream.write,
    CDataStream.reserve, CDataStream.data, CDataStream.empty.
  cbn [run app]. unfold Model.db. rewrite Hok.
  by destruct (Model.table s !! Serialize key) as [stored|].
Qed.

Lemma apply_batch_app m b1 b2 :
  Model.apply_batch m (b1 ++ b2)
  = Model.apply_batch (Model.apply_batch m b1) b2.
Proof. unfold Model.apply_batch. apply fold_left_app. Qed.

(** ** Erasing, and keys that are not touched *)

(** X1. On a working engine [Erase(key)] returns true; and whenever
    [Erase] has returned, on the store it left [Read(key)] returns false
    and [Exists(key)] returns false, whatever the key held before. *)
Theorem Erase_then_Read_not_found w (s : Model.DB) {K V}
    {SK : Serializable K} {SV : Serializable V} (key : K) fSync :
  (Model.fault s = None ->
   exists s', run Model.db s (CDBWrapper.Erase w key fSync)
              = (Returns true, s'))
  /\ (forall s',
        run Model.db s (CDBWrapper.Erase w key fSync) = (Returns true, s') ->
        run Model.db s' (CDBWrapper.Read (V:=V) w key) = (Returns None, s')
        /\ run Model.db s' (CDBWrapper.Exists w key) = (Returns false, s')).
Proof.
  rewrite run_Erase. split.
  - intros ->. eauto.
  - intros s'. destruct (Model.fault s) as [f|]; [discriminate|].
    intros [= <-].
    rewrite run_Read_table, run_Exists_table by done. simpl.
    by rewrite lookup_delete_eq.
Qed.

Lemma Erase_then_Read_not_found_witness :
  Model.fault written_db = None
  /\ run Model.db written_db (CDBWrapper.Erase sample_wrapper true false)
     = (Returns true, empty_db)
  /\ run Model.db empty_db (CDBWrapper.Read (V:=bool) sample_wrapper true)
     = (Returns None, empty_db)
  /\ run Model.db empty_db (CDBWrapper.Exists sample_wrapper true)
     = (Returns false, empty_db).
Proof.
  split; [reflexivity|]. split; [reflexivity|].
  exact (proj2 (Erase_then_Read_not_found (V:=bool) sample_wrapper written_db
                  true false) empty_db eq_refl).
Defined.

(** X2. On a working engine, [Erase] of a key the store does not hold
    returns true and leaves the store exactly as it was. *)
Theorem Erase_of_missing_key w (s : Model.DB) {K} {SK : Serializable K}
    (key : K) fSync :
  Model.fault s = None ->
  Model.table s !! Serialize key = None ->
  run Model.db s (CDBWrapper.Erase w key fSync) = (Returns true, s).
Proof.
  intros Hok Hmiss. rewrite run_Erase, Hok.
  rewrite delete_id by done. by rewrite DB_eta.
Qed.

Lemma Erase_of_missing_key_witness :
  Model.fault written_db = None
  /\ Model.table written_db !! Serialize Byte.x2a = None
  /\ run Model.db written_db (CDBWrapper.Erase sample_wrapper Byte.x2a true)
     = (Returns true, written_db).
Proof.
  split; [reflexivity|]. split; [reflexivity|].
  exact (Erase_of_missing_key sample_wrapper written_db Byte.x2a true
           eq_refl eq_refl).
Defined.

(** X3. [Write(key, value)] and [Erase(key)] change nothing for a key
    whose encoding differs from that of [key]: [Read] and [Exists] of the
    other key give the same result on the store they leave as before. *)
Theorem other_keys_are_untouched w (s : Model.DB) {K V K' V'}
    {SK : Serializable K} {SV : Serializable V}
    {SK' : Serializable K'} {SV' : Serializable V'}
    (key : K) (value : V) (other : K') fSync :
  Serialize other <> Serialize key ->
  (forall s',
      run Model.db s (CDBWrapper.Write w key value fSync)
      = (Returns true, s') ->
      fst (run Model.db s' (CDBWrapper.Read (V:=V') w other))
      = fst (run Model.db s (CDBWrapper.Read (V:=V') w other))
      /\ fst (run Model.db s' (CDBWrapper.Exists w other))
         = fst (run Model.db s (CDBWrapper.Exists w other)))
  /\ (forall s',
      run Model.db s (CDBWrapper.Erase w key fSync) = (Returns true, s') ->
      fst (run Model.db s' (CDBWrapper.Read (V:=V') w other))
      = fst (run Model.db s (CDBWrapper.Read (V:=V') w other))
      /\ fst (run Model.db s' (CDBWrapper.Exists w other))
         = fst (run Model.db s (CDBWrapper.Exists w other))).
Proof.
  intros Hne. rewrite run_Write, run_Erase.
  destruct (Model.fault s) as [f|] eqn:Hok; [by split|].
  split; intros s' [= <-];
    rewrite !run_Read_table, !run_Exists_table by done; simpl.
  - by rewrite lookup_insert_ne.
  - by rewrite lookup_delete_ne.
Qed.

Lemma other_keys_are_untouched_witness :
  Serialize true <> Serialize Byte.x2a
  /\ fst (run Model.db two_key_db
              (CDBWrapper.Read (V:=bool) sample_wrapper true))
     = fst (run Model.db written_db
              (CDBWrapper.Read (V:=bool) sample_wrapper true)).
Proof.
  assert (Serialize true <> Serialize Byte.x2a) as Hne by discriminate.
  split; [exact Hne|].
  exact (proj1 (proj1 (other_keys_are_untouched (V':=bool) sample_wrapper
                         written_db Byte.x2a true true false Hne)
                  two_key_db eq_refl)).
Defined.

(** ** Engine failures *)

(** X4. Whatever the engine: when its lookup fails with a status that is
    neither ok nor not-found, [Read] and [Exists] both throw
    [dbwrapper_error] for that status; on every other status both
    return. *)
Theorem engine_failure_is_thrown {S} (h : Engine DBAnswer S) (s s' : S) w
    {K V} {SK : Serializable K} {SV : Serializable V} (key : K)
    status junk :
  h (Get (Serialize key)) s = ((status, junk), s') ->
  (is_failure status = true ->
   run h s (CDBWrapper.Read (V:=V) w key)
   = (Throws (dbwrapper_error_of status), s')
   /\ run h s (CDBWrapper.Exists w key)
      = (Throws (dbwrapper_error_of status), s'))
  /\ (is_failure status = false ->
      (exists r, run h s (CDBWrapper.Read (V:=V) w key) = (Returns r, s'))
      /\ (exists r, run h s (CDBWrapper.Exists w key) = (Returns r, s'))).
Proof.
  intros Hget.
  unfold CDBWrapper.Read, CDBWrapper.Exists, CDataStream.write,
    CDataStream.reserve, CDataStream.data, CDataStream.read,
    CDataStream.of_bytes, CDataStream.empty.
  simpl. rewrite Hget.
  split; intros Hf; destruct status; try discriminate Hf; simpl;
    try (split; reflexivity).
  - split; [|by eexists].
    destruct (Unserialize _); by eexists.
  - split; by eexists.
Qed.

Lemma engine_failure_is_thrown_witness :
  Model.db (Get (Serialize true)) failing_db
  = ((leveldb.IOError, []), failing_db)
  /\ is_failure leveldb.IOError = true
  /\ run Model.db failing_db (CDBWrapper.Read (V:=bool) sample_wrapper true)
     = (Throws (dbwrapper_error_of leveldb.IOError), failing_db).
Proof.
  split; [reflexivity|]. split; [reflexivity|].
  exact (proj1 (proj1 (engine_failure_is_thrown (V:=bool) Model.db failing_db
                         failing_db sample_wrapper true leveldb.IOError []
                         eq_refl) eq_refl)).
Defined.

(** X5. Whatever the engine: on a state where [Read(key)] returns true,
    [Exists(key)] returns true as well. *)
Theorem readable_key_exists {S} (h : Engine DBAnswer S) (s s' : S) w
    {K V} {SK : Serializable K} {SV : Serializable V} (key : K) (value : V) :
  run h s (CDBWrapper.Read w key) = (Returns (Some value), s') ->
  run h s (CDBWrapper.Exists w key) = (Returns true, s').
Proof.
  unfold CDBWrapper.Read, CDBWrapper.Exists, CDataStream.write,
    CDataStream.reserve, CDataStream.data, CDataStream.read,
    CDataStream.of_bytes, CDataStream.empty.
  simpl. destruct (h (Get (Serialize key)) s) as [[status strValue] s1].
  destruct status; simpl; try discriminate.
  destruct (Unserialize _); [|discriminate]. by intros [= _ ->].
Qed.

Lemma readable_key_exists_witness :
  run Model.db written_db (CDBWrapper.Read sample_wrapper true)
  = (Returns (Some false), written_db)
  /\ run Model.db written_db (CDBWrapper.Exists sample_wrapper true)
     = (Returns true, written_db).
Proof.
  split; [reflexivity|].
  exact (readable_key_exists Model.db written_db written_db sample_wrapper
           true false eq_refl).
Defined.

(** X6. [Sync] makes one engine call, a durable commit of a batch without
    entries, and on a working engine returns true and leaves the store as
    it was; [Flush] makes no engine call at all and returns true. *)
Theorem Sync_commits_nothing w :
  (forall S (h : Engine DBAnswer S) (s : S),
      trace h s (CDBWrapper.Sync w) = [DBWrite true []]
      /\ trace h s (CDBWrapper.Flush w) = []
      /\ run h s (CDBWrapper.Flush w) = (Returns true, s))
  /\ (forall s : Model.DB,
        Model.fault s = None ->
        run Model.db s (CDBWrapper.Sync w) = (Returns true, s)).
Proof.
  split.
  - intros S h s. repeat split.
    unfold CDBWrapper.Sync, CDBWrapper.WriteBatch. simpl.
    destruct (h _ s) as [status s']. by destruct status.
  - intros s Hok. unfold CDBWrapper.Sync.
    rewrite run_WriteBatch, Hok. simpl. by rewrite DB_eta.
Qed.

Lemma Sync_commits_nothing_witness :
  Model.fault written_db = None
  /\ run Model.db written_db (CDBWrapper.Sync sample_wrapper)
     = (Returns true, written_db).
Proof.
  split; [reflexivity|].
  exact (proj2 (Sync_commits_nothing sample_wrapper) written_db eq_refl).
Defined.

(** ** Batches, call after call *)

Lemma updates_batch cs b :
  streams_empty b ->
  forallb is_update cs = true ->
  CDBBatch.batch (calls_batch b cs)
  = CDBBatch.batch b ++ flat_map (call_entries (CDBBatch.parent b)) cs.
Proof.
  revert b. induction cs as [|c cs IH]; intros b He Hup; simpl.
  - by rewrite app_nil_r.
  - simpl in Hup. apply andb_prop in Hup as [Hc Hcs].
    fold (calls_batch (call_batch b c) cs).
    rewrite IH by (done || by apply call_keeps_streams_empty).
    rewrite call_keeps_parent, app_assoc. f_equal.
    destruct c as [K V SK SV key value|K SK key|]; [| |discriminate];
      cbn [call_batch call_entries].
    + by rewrite Write_from_empty.
    + by rewrite Erase_from_empty.
Qed.

Lemma length_prefix_exact len :
  (len <= 16383 -> length_prefix len = leveldb.varint_length len)
  /\ (16383 < len -> length_prefix len < leveldb.varint_length len).
Proof.
  unfold length_prefix, leveldb.varint_length.
  repeat match goal with
         | |- context [?a <=? ?b] => destruct (Z.leb_spec a b)
         end; lia.
Qed.

(** What one put or delete adds to the estimate, against the bytes of
    the entry it queues. *)
Lemma update_entry_estimate b c :
  streams_empty b ->
  is_update c = true ->
  exists e,
    CDBBatch.batch (call_batch b c) = CDBBatch.batch b ++ [e]
    /\ call_estimate c <= leveldb.entry_bytes e
    /\ (below_16k e -> call_estimate c = leveldb.entry_bytes e)
    /\ (~ below_16k e -> call_estimate c < leveldb.entry_bytes e).
Proof.
  intros He Hup.
  destruct c as [K V SK SV key value|K SK key|]; [| |discriminate];
    cbn [call_batch call_estimate].
  - rewrite Write_from_empty by done. eexists. split; [reflexivity|].
    cbn [leveldb.entry_bytes below_16k]. rewrite Xor_size.
    destruct (Write_estimate_bounds (size (Serialize key))
                (size (Serialize value))) as (-> & _ & Hle);
      [apply size_nonneg | apply size_nonneg |].
    destruct (length_prefix_exact (size (Serialize key))) as [Hk1 Hk2].
    destruct (length_prefix_exact (size (Serialize value))) as [Hv1 Hv2].
    pose proof (length_prefix_varint (size (Serialize key))).
    pose proof (length_prefix_varint (size (Serialize value))).
    repeat split; [lia|intros [? ?]; lia|].
    intros Hbig.
    destruct (Z.le_gt_cases (size (Serialize key)) 16383);
      destruct (Z.le_gt_cases (size (Serialize value)) 16383); lia.
  - rewrite Erase_from_empty by done. eexists. split; [reflexivity|].
    cbn [leveldb.entry_bytes below_16k].
    destruct (Erase_estimate_bounds (size (Serialize key))) as (-> & _ & Hle);
      [apply size_nonneg |].
    destruct (length_prefix_exact (size (Serialize key))) as [Hk1 Hk2].
    repeat split; [lia|intros ?; lia|].
    intros Hbig.
    destruct (Z.le_gt_cases (size (Serialize key)) 16383); lia.
Qed.

(** X7. A cleared batch is a new batch: after any history of calls,
    [Clear()] leaves the batch in exactly the state the constructor
    makes, scratch streams included. *)
Theorem Clear_gives_a_new_batch w cs :
  CDBBatch.Clear (calls_batch (CDBBatch.new w) cs) = CDBBatch.new w.
Proof.
  pose proof (history_streams_empty w cs) as [Hk Hv].
  pose proof (history_parent w cs) as Hp.
  destruct (calls_batch (CDBBatch.new w) cs) as [p bt sk sv est].
  simpl in Hk, Hv, Hp. subst. reflexivity.
Qed.

(** X8. After any history of a batch, a run of [Write] and [Erase] calls
    queues exactly one entry for each call, in call order, behind the
    entries already there: the encoded key with the obfuscated encoded
    value for a put, the encoded key for a delete. *)
Theorem entries_follow_the_calls w history cs :
  forallb is_update cs = true ->
  let b := calls_batch (CDBBatch.new w) history in
  CDBBatch.batch (calls_batch b cs)
  = CDBBatch.batch b ++ flat_map (call_entries w) cs.
Proof.
  intros Hup b.
  rewrite updates_batch by (done || apply history_streams_empty).
  unfold b. by rewrite history_parent.
Qed.

Lemma entries_follow_the_calls_witness :
  let cs := [CallWrite true false; CallErase long_key] in
  forallb is_update cs = true
  /\ CDBBatch.batch
       (calls_batch (calls_batch (CDBBatch.new sample_wrapper) [CallClear]) cs)
     = CDBBatch.batch (calls_batch (CDBBatch.new sample_wrapper) [CallClear])
       ++ flat_map (call_entries sample_wrapper) cs.
Proof.
  intros cs. split; [reflexivity|].
  exact (entries_follow_the_calls sample_wrapper [CallClear] cs eq_refl).
Defined.

(** X9. Over a run of [Write] and [Erase] calls on a batch a program can
    hold, ending in an engine batch that fits in memory, the size
    estimate grows by the sum of what the single calls add: it is
    additive over the calls. *)
Theorem SizeEstimate_is_additive w cs b :
  Reachable w b ->
  forallb is_update cs = true ->
  fits_in_memory (calls_batch b cs) ->
  CDBBatch.SizeEstimate (calls_batch b cs)
  = CDBBatch.SizeEstimate b + calls_estimate cs.
Proof.
  revert b. induction cs as [|c cs IH]; intros b Hr Hup Hfit; simpl.
  - unfold CDBBatch.SizeEstimate. lia.
  - simpl in Hup. apply andb_prop in Hup as [Hc Hcs].
    assert (fits_in_memory (call_batch b c)) as Hfc.
    { unfold fits_in_memory in *. simpl in Hfit.
      pose proof (updates_grow_payload cs (call_batch b c) Hcs). lia. }
    fold (calls_batch (call_batch b c) cs).
    rewrite (IH (call_batch b c) (Reachable_call w b c Hr Hfc) Hcs Hfit).
    destruct (Reachable_invariant w b Hr) as (_ & He & Hest & _).
    destruct (update_estimate b c He Hest Hfc Hc) as (Heq & _ & _).
    unfold CDBBatch.SizeEstimate. rewrite Heq. lia.
Qed.

Lemma SizeEstimate_is_additive_witness :
  let cs := [CallWrite true false; CallErase long_key; CallErase true] in
  let b := CDBBatch.new sample_wrapper in
  Reachable sample_wrapper b
  /\ forallb is_update cs = true
  /\ fits_in_memory (calls_batch b cs)
  /\ CDBBatch.SizeEstimate (calls_batch b cs)
     = CDBBatch.SizeEstimate b + calls_estimate cs.
Proof.
  intros cs b.
  assert (Reachable sample_wrapper b) as Hr by apply Reachable_new.
  assert (fits_in_memory (calls_batch b cs)) as Hfit
    by (vm_compute; discriminate).
  split; [exact Hr|]. split; [reflexivity|]. split; [exact Hfit|].
  exact (SizeEstimate_is_additive sample_wrapper cs b Hr eq_refl Hfit).
Defined.

(** X10. On every batch a program can hold, the size estimate never
    exceeds the bytes the engine serializes the entries to (header byte,
    varint lengths, key and value bytes, as the code's comment lists
    them); it equals them when every key and value is less than 16k, the
    assumption the comment states, and is strictly smaller as soon as one
    key or value is not. *)
Theorem SizeEstimate_exact_below_16k w b :
  Reachable w b ->
  CDBBatch.SizeEstimate b <= leveldb.payload_bytes (CDBBatch.batch b)
  /\ (Forall below_16k (CDBBatch.batch b) ->
      CDBBatch.SizeEstimate b = leveldb.payload_bytes (CDBBatch.batch b))
  /\ (Exists (fun e => ~ below_16k e) (CDBBatch.batch b) ->
      CDBBatch.SizeEstimate b < leveldb.payload_bytes (CDBBatch.batch b)).
Proof.
  unfold CDBBatch.SizeEstimate.
  induction 1 as [|b c Hr (IHle & IHeq & IHlt) Hfit].
  - simpl. repeat split; [lia|]. intros Hex. inversion Hex.
  - destruct (Reachable_invariant w b Hr) as (_ & He & Hest & _).
    destruct (is_update c) eqn:Hup.
    + destruct (update_estimate b c He Hest Hfit Hup) as (-> & _ & _).
      destruct (update_entry_estimate b c He Hup)
        as (e & -> & Hle & Heq & Hlt).
      rewrite payload_bytes_app. simpl. repeat split.
      * lia.
      * intros Hall. apply Forall_app in Hall as [Hall He1].
        inversion He1; subst. rewrite IHeq, Heq by done. lia.
      * intros Hex. apply Exists_app in Hex as [Hex|Hex].
        -- pose proof (IHlt Hex). lia.
        -- inversion Hex as [? ? Hbig|? ? Hnil]; subst;
             [|inversion Hnil].
           pose proof (Hlt Hbig). lia.
    + destruct c; try discriminate. simpl.
      repeat split; [lia|]. intros Hex. inversion Hex.
Qed.

Lemma SizeEstimate_exact_below_16k_witness :
  let b := CDBBatch.Write (CDBBatch.new sample_wrapper) long_key true in
  let big := CDBBatch.Write (CDBBatch.new sample_wrapper) true value_16k in
  Reachable sample_wrapper b
  /\ Forall below_16k (CDBBatch.batch b)
  /\ CDBBatch.SizeEstimate b = leveldb.payload_bytes (CDBBatch.batch b)
  /\ Reachable sample_wrapper big
  /\ Exists (fun e => ~ below_16k e) (CDBBatch.batch big)
  /\ CDBBatch.SizeEstimate big < leveldb.payload_bytes (CDBBatch.batch big).
Proof.
  intros b big.
  assert (Reachable sample_wrapper b) as Hr.
  { apply (Reachable_call sample_wrapper _ (CallWrite long_key true));
      [apply Reachable_new | vm_compute; discriminate]. }
  assert (Forall below_16k (CDBBatch.batch b)) as Hall.
  { repeat constructor; vm_compute; discriminate. }
  assert (Reachable sample_wrapper big) as Hrb.
  { apply (Reachable_call sample_wrapper _ (CallWrite true value_16k));
      [apply Reachable_new | vm_compute; discriminate]. }
  assert (Exists (fun e => ~ below_16k e) (CDBBatch.batch big)) as Hex.
  { apply Exists_cons_hd. intros [_ Hv]. revert Hv. vm_compute. auto. }
  split; [exact Hr|]. split; [exact Hall|].
  split; [exact (proj1 (proj2 (SizeEstimate_exact_below_16k _ _ Hr)) Hall)|].
  split; [exact Hrb|]. split; [exact Hex|].
  exact (proj2 (proj2 (SizeEstimate_exact_below_16k _ _ Hrb)) Hex).
Defined.

(** X11. On every batch a program can hold, the size estimate is at least
    2 for each queued entry, so [SizeEstimate()] is 0 exactly when the
    batch holds no entry. *)
Theorem SizeEstimate_zero_iff_empty w b :
  Reachable w b ->
  2 * Z.of_nat (length (CDBBatch.batch b)) <= CDBBatch.SizeEstimate b
  /\ (CDBBatch.SizeEstimate b = 0 <-> CDBBatch.batch b = []).
Proof.
  intros Hr.
  assert (2 * Z.of_nat (length (CDBBatch.batch b)) <= CDBBatch.size_estimate b)
    as Hlow.
  { induction Hr as [|b c Hr IH Hfit]; [simpl; lia|].
    destruct (Reachable_invariant w b Hr) as (_ & He & Hest & _).
    destruct (is_update c) eqn:Hup.
    - destruct (update_estimate b c He Hest Hfit Hup) as (-> & ? & _).
      destruct (update_appends b c Hup) as [e ->].
      rewrite length_app. simpl. lia.
    - destruct c; try discriminate Hup. simpl. lia. }
  split; [exact Hlow|].
  destruct (Reachable_invariant w b Hr) as (_ & _ & Hest & _).
  unfold CDBBatch.SizeEstimate. split.
  - intros H0. destruct (CDBBatch.batch b) as [|e rest]; [done|].
    simpl in Hlow. lia.
  - intros Hnil. rewrite Hnil in Hest. simpl in Hest. lia.
Qed.

Lemma SizeEstimate_zero_iff_empty_witness :
  let b := calls_batch (CDBBatch.new sample_wrapper)
             [CallWrite true false; CallClear] in
  Reachable sample_wrapper b
  /\ (CDBBatch.SizeEstimate b = 0 <-> CDBBatch.batch b = []).
Proof.
  intros b.
  assert (Reachable sample_wrapper b) as Hr.
  { apply (Reachable_call sample_wrapper _ CallClear);
      [|vm_compute; discriminate].
    apply (Reachable_call sample_wrapper _ (CallWrite true false));
      [apply Reachable_new | vm_compute; discriminate]. }
  split; [exact Hr|].
  exact (proj2 (SizeEstimate_zero_iff_empty sample_wrapper b Hr)).
Defined.

Lemma calls_ignore_the_key cs b1 b2 :
  streams_empty b1 -> streams_empty b2 ->
  CDBBatch.size_estimate b1 = CDBBatch.size_estimate b2 ->
  map leveldb.entry_key (CDBBatch.batch b1)
  = map leveldb.entry_key (CDBBatch.batch b2) ->
  CDBBatch.size_estimate (calls_batch b1 cs)
  = CDBBatch.size_estimate (calls_batch b2 cs)
  /\ map leveldb.entry_key (CDBBatch.batch (calls_batch b1 cs))
     = map leveldb.entry_key (CDBBatch.batch (calls_batch b2 cs)).
Proof.
  revert b1 b2. induction cs as [|c cs IH]; intros b1 b2 He1 He2 Hest Hkeys;
    simpl; [done|].
  apply IH; try by apply call_keeps_streams_empty.
  - destruct c; cbn [call_batch].
    + rewrite !Write_from_empty by done. simpl. by rewrite Hest.
    + rewrite !Erase_from_empty by done. simpl. by rewrite Hest.
    + done.
  - destruct c; cbn [call_batch].
    + rewrite !Write_from_empty by done. simpl.
      by rewrite !map_app, Hkeys.
    + rewrite !Erase_from_empty by done. simpl.
      by rewrite !map_app, Hkeys.
    + done.
Qed.

(** X12. The obfuscation key has no part in the size estimate nor in the
    key bytes of the queued entries: the same calls on batches of two
    stores with different obfuscation keys give the same estimate and
    the same entry keys. *)
Theorem estimate_ignores_the_obfuscation_key w1 w2 cs :
  CDBBatch.SizeEstimate (calls_batch (CDBBatch.new w1) cs)
  = CDBBatch.SizeEstimate (calls_batch (CDBBatch.new w2) cs)
  /\ map leveldb.entry_key (CDBBatch.batch (calls_batch (CDBBatch.new w1) cs))
     = map leveldb.entry_key
         (CDBBatch.batch (calls_batch (CDBBatch.new w2) cs)).
Proof. by apply calls_ignore_the_key. Qed.

(** ** Committing a batch *)

Lemma run_calls_store w fSync cs (s : Model.DB) :
  Model.fault s = None ->
  forallb is_update cs = true ->
  run Model.db s (calls_store w fSync cs)
  = (Returns true,
     {| Model.table :=
          Model.apply_batch (Model.table s) (flat_map (call_entries w) cs);
        Model.fault := None |}).
Proof.
  revert s. induction cs as [|c cs IH]; intros s Hok Hup.
  - simpl. by rewrite DB_eta.
  - simpl in Hup. apply andb_prop in Hup as [Hc Hcs].
    cbn [calls_store]. rewrite run_bind.
    destruct c as [K V SK SV key value|K SK key|]; [| |discriminate];
      cbn [call_store call_entries flat_map].
    + rewrite run_Write, Hok. by rewrite IH.
    + rewrite run_Erase, Hok. by rewrite IH.
Qed.

(** X13. On a working engine, committing a batch filled by a run of
    [Write] and [Erase] calls leaves the store that the same calls leave
    when each is made on the store itself, one after the other, and
    returns true as they do. *)
Theorem batch_commit_is_the_calls_in_order w (s : Model.DB) cs fSync :
  Model.fault s = None ->
  forallb is_update cs = true ->
  run Model.db s
    (CDBWrapper.WriteBatch w (calls_batch (CDBBatch.new w) cs) fSync)
  = run Model.db s (calls_store w fSync cs).
Proof.
  intros Hok Hup.
  rewrite run_WriteBatch, Hok, run_calls_store by done.
  by rewrite updates_batch by (done || by split).
Qed.

Lemma batch_commit_is_the_calls_in_order_witness :
  let cs := [CallWrite true true; CallWrite Byte.x2a false; CallErase true] in
  Model.fault written_db = None
  /\ forallb is_update cs = true
  /\ run Model.db written_db
       (CDBWrapper.WriteBatch sample_wrapper
          (calls_batch (CDBBatch.new sample_wrapper) cs) false)
     = run Model.db written_db (calls_store sample_wrapper false cs).
Proof.
  intros cs. split; [reflexivity|]. split; [reflexivity|].
  exact (batch_commit_is_the_calls_in_order sample_wrapper written_db cs
           false eq_refl eq_refl).
Defined.

(** X14. Within one batch the last call on a key decides: after any
    history of the batch, when a final [Write(key, value)] is queued and
    the batch is committed, [Read(key)] returns [value], whatever was
    queued for the key before; when the final call is [Erase(key)],
    [Read(key)] and [Exists(key)] return false. On a working engine the
    commit returns true. *)
Theorem last_call_on_a_key_wins w (s : Model.DB) history {K V}
    {SK : Serializable K} {SV : Serializable V} (key : K) (value : V) fSync :
  (forall v : V, Unserialize (Serialize v) = Some v) ->
  let b := calls_batch (CDBBatch.new w) history in
  (Model.fault s = None ->
   exists s1 s2,
     run Model.db s (CDBWrapper.WriteBatch w (CDBBatch.Write b key value) fSync)
     = (Returns true, s1)
     /\ run Model.db s (CDBWrapper.WriteBatch w (CDBBatch.Erase b key) fSync)
        = (Returns true, s2))
  /\ (forall s',
        run Model.db s
          (CDBWrapper.WriteBatch w (CDBBatch.Write b key value) fSync)
        = (Returns true, s') ->
        run Model.db s' (CDBWrapper.Read w key) = (Returns (Some value), s'))
  /\ (forall s',
        run Model.db s (CDBWrapper.WriteBatch w (CDBBatch.Erase b key) fSync)
        = (Returns true, s') ->
        run Model.db s' (CDBWrapper.Read (V:=V) w key) = (Returns None, s')
        /\ run Model.db s' (CDBWrapper.Exists w key) = (Returns false, s')).
Proof.
  intros Hrt b.
  pose proof (history_streams_empty w history) as He.
  pose proof (history_parent w history) as Hp. fold b in He, Hp.
  rewrite !run_WriteBatch.
  destruct (Model.fault s) as [f|] eqn:Hok.
  { split; [discriminate|]. split; discriminate. }
  split; [eauto|].
  rewrite (Write_from_empty b key value He), (Erase_from_empty b key He).
  cbn [CDBBatch.batch]. rewrite !apply_batch_app, Hp.
  cbn [Model.apply_batch fold_left Model.apply_entry].
  split; intros s' [= <-].
  - rewrite run_Read_table by done. simpl.
    by rewrite lookup_insert_eq, Xor_involutive, Hrt.
  - rewrite run_Read_table, run_Exists_table by done. simpl.
    by rewrite lookup_delete_eq.
Qed.

Lemma last_call_on_a_key_wins_witness :
  let history := [CallWrite true true; CallErase true] in
  let b := calls_batch (CDBBatch.new sample_wrapper) history in
  (forall v : bool, Unserialize (Serialize v) = Some v)
  /\ run Model.db empty_db
       (CDBWrapper.WriteBatch sample_wrapper (CDBBatch.Write b true false) true)
     = (Returns true, written_db)
  /\ run Model.db written_db (CDBWrapper.Read sample_wrapper true)
     = (Returns (Some false), written_db).
Proof.
  intros history b.
  assert (forall v : bool, Unserialize (Serialize v) = Some v) as Hrt
    by (by intros []).
  split; [exact Hrt|]. split; [reflexivity|].
  exact (proj1 (proj2 (last_call_on_a_key_wins sample_wrapper empty_db
                         history true false true Hrt))
           written_db eq_refl).
Defined.

(** ** The iterator *)

(** X15. Whatever the engine's cursor gives, [GetKey] and [GetValue]
    never throw: when the key bytes do not decode, [GetKey] returns
    false, and when the value bytes do not decode after de-obfuscation,
    [GetValue] returns false. *)
Theorem iterator_decode_failure_is_false {S} (h : Engine IterAnswer S)
    (s : S) it {K V} {SK : Serializable K} {SV : Serializable V} :
  (forall slKey s',
      h IterKey s = (slKey, s') ->
      Unserialize (T:=K) slKey = None ->
      run h s (CDBIterator.GetKey (K:=K) it) = (Returns None, s'))
  /\ (forall slValue s',
      h IterValue s = (slValue, s') ->
      Unserialize (T:=V)
        (CDataStream.Xor slValue (obfuscate_key (CDBIterator.parent it)))
      = None ->
      run h s (CDBIterator.GetValue (V:=V) it) = (Returns None, s'))
  /\ (exists r s', run h s (CDBIterator.GetKey (K:=K) it) = (Returns r, s'))
  /\ (exists r s', run h s (CDBIterator.GetValue (V:=V) it) = (Returns r, s')).
Proof.
  unfold CDBIterator.GetKey, CDBIterator.GetValue, CDataStream.read,
    CDataStream.of_bytes, dbwrapper_private.GetObfuscateKey.
  cbn [run]. repeat split.
  - intros slKey s' -> Hdec. by rewrite Hdec.
  - intros slValue s' -> Hdec. by rewrite Hdec.
  - destruct (h IterKey s) as [slKey s'].
    destruct (Unserialize slKey); by do 2 eexists.
  - destruct (h IterValue s) as [slValue s'].
    destruct (Unserialize _); by do 2 eexists.
Qed.

Lemma iterator_decode_failure_is_false_witness :
  Model.cursor IterValue three_entry_cursor = ([], three_entry_cursor)
  /\ Unserialize (T:=bool)
       (CDataStream.Xor [] (obfuscate_key sample_wrapper)) = None
  /\ run Model.cursor three_entry_cursor
       (CDBIterator.GetValue (V:=bool) (CDBIterator.mk sample_wrapper))
     = (Returns None, three_entry_cursor).
Proof.
  split; [reflexivity|]. split; [reflexivity|].
  exact (proj1 (proj2 (iterator_decode_failure_is_false (K:=bool) (V:=bool)
                         Model.cursor three_entry_cursor
                         (CDBIterator.mk sample_wrapper)))
           [] three_entry_cursor eq_refl eq_refl).
Defined.

(** X16. Whatever the engine: on an entry that a write of [value] made,
    [GetValueSize] returns the length of the encoding of [value] without
    decoding it, the obfuscation leaving lengths as they are; the result
    is an [unsigned int], so the length is taken modulo 2^32. *)
Theorem GetValueSize_is_the_encoded_length {S} (h : Engine IterAnswer S)
    (s s' : S) it {V} {SV : Serializable V} (value : V) :
  h IterValue s
  = (CDataStream.Xor (Serialize value)
       (obfuscate_key (CDBIterator.parent it)), s') ->
  run h s (CDBIterator.GetValueSize it)
  = (Returns (size (Serialize value) mod 2 ^ 32), s')
  /\ (size (Serialize value) < 2 ^ 32 ->
      run h s (CDBIterator.GetValueSize it)
      = (Returns (size (Serialize value)), s')).
Proof.
  intros Hval. unfold CDBIterator.GetValueSize. cbn [run].
  rewrite Hval, Xor_size. split; [done|].
  intros Hsmall. rewrite Z.mod_small; [done|].
  pose proof (size_nonneg (Serialize value)). lia.
Qed.

Lemma GetValueSize_is_the_encoded_length_witness :
  Model.cursor IterValue written_cursor
  = (CDataStream.Xor (Serialize false) (obfuscate_key sample_wrapper),
     written_cursor)
  /\ size (Serialize false) < 2 ^ 32
  /\ run Model.cursor written_cursor
       (CDBIterator.GetValueSize (CDBIterator.mk sample_wrapper))
     = (Returns (size (Serialize false)), written_cursor).
Proof.
  assert (size (Serialize false) < 2 ^ 32) as Hsmall by reflexivity.
  split; [reflexivity|]. split; [exact Hsmall|].
  exact (proj2 (GetValueSize_is_the_encoded_length Model.cursor
                  written_cursor written_cursor
                  (CDBIterator.mk sample_wrapper) false eq_refl) Hsmall).
Defined.

Lemma bytes_ltb_irrefl (a : bytes) : Model.bytes_ltb a a = false.
Proof.
  induction a as [|x a IH]; simpl; [done|].
  rewrite Z.ltb_irrefl, Z.eqb_refl, IH. reflexivity.
Qed.

Lemma lower_bound_finds key stored es :
  keys_increase es ->
  In (key, stored) es ->
  nth (Model.lower_bound key es) es ([], []) = (key, stored).
Proof.
  induction es as [|[k v] rest IH]; intros Hsort Hin; [done|].
  destruct Hsort as [Hhead Hrest]. simpl.
  destruct Hin as [[= -> ->]|Hin].
  - by rewrite bytes_ltb_irrefl.
  - rewrite List.Forall_forall in Hhead.
    pose proof (Hhead (key, stored) Hin) as Hlt. simpl in Hlt.
    rewrite Hlt. by apply IH.
Qed.

(** X17. On a cursor whose entries are in increasing key order and hold
    an entry for the encoding of [key], [Seek(key)] followed by [GetKey]
    gives the decoding of that encoding and followed by [GetValue] the
    decoding of the entry's de-obfuscated value, from whatever position
    the cursor had; [Seek] makes the one engine call. *)
Theorem Seek_finds_the_entry it es position {K V}
    {SK : Serializable K} {SV : Serializable V} (key : K) stored :
  keys_increase es ->
  In (Serialize key, stored) es ->
  let start := {| Model.entries := es; Model.position := position |} in
  fst (run Model.cursor start
         (CDBIterator.Seek it key ;; CDBIterator.GetKey (K:=K) it))
  = Returns (Unserialize (Serialize key))
  /\ fst (run Model.cursor start
            (CDBIterator.Seek it key ;; CDBIterator.GetValue (V:=V) it))
     = Returns (Unserialize
                  (CDataStream.Xor stored
                     (obfuscate_key (CDBIterator.parent it)))).
Proof.
  intros Hsort Hin start.
  pose proof (lower_bound_finds _ _ _ Hsort Hin) as Hfound.
  unfold CDBIterator.Seek, CDBIterator.GetKey, CDBIterator.GetValue,
    CDataStream.write, CDataStream.reserve, CDataStream.data,
    CDataStream.read, CDataStream.of_bytes, CDataStream.empty,
    dbwrapper_private.GetObfuscateKey.
  cbn [bind run Model.cursor app start fst snd Model.entries Model.position].
  unfold Model.current.
  cbn [Model.entries Model.position]. rewrite Hfound. cbn [fst snd].
  split.
  - by destruct (Unserialize (Serialize key)).
  - by destruct (Unserialize _).
Qed.

Lemma Seek_finds_the_entry_witness :
  keys_increase (Model.entries three_entry_cursor)
  /\ In (Serialize true,
         CDataStream.Xor (Serialize false) (obfuscate_key sample_wrapper))
       (Model.entries three_entry_cursor)
  /\ fst (run Model.cursor three_entry_cursor
            (CDBIterator.Seek (CDBIterator.mk sample_wrapper) true ;;
             CDBIterator.GetValue (V:=bool) (CDBIterator.mk sample_wrapper)))
     = Returns (Some false).
Proof.
  assert (keys_increase (Model.entries three_entry_cursor)) as Hsort
    by (simpl; repeat constructor).
  assert (In (Serialize true,
              CDataStream.Xor (Serialize false) (obfuscate_key sample_wrapper))
            (Model.entries three_entry_cursor)) as Hin
    by (right; left; reflexivity).
  split; [exact Hsort|]. split; [exact Hin|].
  exact (proj2 (Seek_finds_the_entry (V:=bool) (CDBIterator.mk sample_wrapper)
                  _ 2%nat true _ Hsort Hin)).
Defined.

(** ** Keys are their encodings *)

(** X18. The store tells keys apart by their encoded bytes only: after
    [Write(key, value)], a [Read] of any other typed key with the same
    encoding returns [value], and [Exists] of it returns true. *)
Theorem same_encoding_is_the_same_key w (s : Model.DB) {K K' V}
    {SK : Serializable K} {SK' : Serializable K'} {SV : Serializable V}
    (key : K) (other : K') (value : V) fSync :
  (forall v : V, Unserialize (Serialize v) = Some v) ->
  Serialize other = Serialize key ->
  forall s',
    run Model.db s (CDBWrapper.Write w key value fSync) = (Returns true, s') ->
    run Model.db s' (CDBWrapper.Read w other) = (Returns (Some value), s')
    /\ run Model.db s' (CDBWrapper.Exists w other) = (Returns true, s').
Proof.
  intros Hrt Hsame s'. rewrite run_Write.
  destruct (Model.fault s) as [f|]; [discriminate|]. intros [= <-].
  rewrite run_Read_table, run_Exists_table by done. simpl.
  by rewrite Hsame, lookup_insert_eq, Xor_involutive, Hrt.
Qed.

Lemma same_encoding_is_the_same_key_witness :
  (forall v : bool, Unserialize (Serialize v) = Some v)
  /\ Serialize Byte.x01 = Serialize true
  /\ run Model.db empty_db (CDBWrapper.Write sample_wrapper true false false)
     = (Returns true, written_db)
  /\ run Model.db written_db (CDBWrapper.Read sample_wrapper Byte.x01)
     = (Returns (Some false), written_db).
Proof.
  assert (forall v : bool, Unserialize (Serialize v) = Some v) as Hrt
    by (by intros []).
  split; [exact Hrt|]. split; [reflexivity|]. split; [reflexivity|].
  exact (proj1 (same_encoding_is_the_same_key sample_wrapper empty_db
                  true Byte.x01 false false Hrt eq_refl written_db eq_refl)).
Defined.
